(** * The breast-cancer prediction service ([app.py]): request handlers

    A shallow embedding of the two JSON handlers of [app.py],
    [handle_inference] ([POST /predict]) and [provide_example_cases]
    ([GET /fetch-samples]), and the properties of them that the
    specification states.

    Python values are the values the JSON decoder produces; Python floats
    are IEEE 754 binary64 numbers ([spec_float] at precision 53, [emax]
    1024); a handler body is a computation that finishes, returns a
    response early, or raises.

    What lies outside [app.py] is a parameter or a part of the world: the
    model wrapper ([feature_names], [predict]), the dataset file and the
    random generator.  Strings are ASCII, exceptions are instances of
    [Exception], and [jsonify] is total.  The texts of the exceptions that
    the interpreter and the libraries raise follow CPython 3.12, NumPy and
    pandas; no property below depends on their wording. *)

From Stdlib Require Import ZArith List String Ascii Bool Lia.
From Stdlib Require Import Floats.SpecFloat.
Import ListNotations.

Set Warnings "-register-all".
Local Open Scope string_scope.
Local Open Scope Z_scope.

(** ** Python values *)

(** What [json.loads] (behind [request.get_json()]) produces.  A JSON object
    becomes a [dict] with string keys, kept here as its list of items in
    insertion order. *)
Inductive pyval : Type :=
| PNone
| PBool (b : bool)
| PInt (n : Z)
| PFloat (x : spec_float)
| PStr (s : string)
| PList (items : list pyval)
| PDict (items : list (string * pyval)).

Definition type_name (v : pyval) : string :=
  match v with
  | PNone => "NoneType"
  | PBool _ => "bool"
  | PInt _ => "int"
  | PFloat _ => "float"
  | PStr _ => "str"
  | PList _ => "list"
  | PDict _ => "dict"
  end.

(** ** Exceptions and control flow *)

Inductive exn_class : Type :=
| ValueError
| TypeError
| OverflowError
| KeyError
| FileNotFoundError
| OtherException (name : string).

(** An instance of [Exception]: its class and the text [str(e)] gives. *)
Record exn : Type := mk_exn { exn_cls : exn_class; exn_text : string }.

(** The result of a library call: a value or a raised exception. *)
Inductive result (A : Type) : Type :=
| Ok (a : A)
| Err (e : exn).
Arguments Ok {A} a.
Arguments Err {A} e.

(** An HTTP response: the status code and the JSON body ([jsonify] of a
    [dict]).  A handler that returns [jsonify(...)] alone answers 200. *)
Record response : Type := mk_response { status_code : Z; body : pyval }.

(** A piece of a handler body either runs to its end with a value, leaves
    the handler with [return], or raises. *)
Inductive outcome (A : Type) : Type :=
| Done (a : A)
| Return (r : response)
| Raise (e : exn).
Arguments Done {A} a.
Arguments Return {A} r.
Arguments Raise {A} e.

Definition bind {A B : Type} (m : outcome A) (k : A -> outcome B) : outcome B :=
  match m with
  | Done a => k a
  | Return r => Return r
  | Raise e => Raise e
  end.

Definition call {A : Type} (r : result A) : outcome A :=
  match r with
  | Ok a => Done a
  | Err e => Raise e
  end.

Notation "x <- m ;; k" := (bind m (fun x => k))
  (at level 61, m at next level, right associativity).

(** [try: body except classes: handler]: an exception of [body] whose class
    [catches] accepts runs [handler]; anything else passes through. *)
Definition try_except {A : Type} (body : outcome A) (catches : exn_class -> bool)
    (handler : exn -> outcome A) : outcome A :=
  match body with
  | Raise e => if catches (exn_cls e) then handler e else Raise e
  | other => other
  end.

(** ** Dictionaries *)

Fixpoint dict_get {V : Type} (d : list (string * V)) (k : string) : option V :=
  match d with
  | [] => None
  | (k', v) :: rest => if String.eqb k' k then Some v else dict_get rest k
  end.

Definition dict_has {V : Type} (d : list (string * V)) (k : string) : bool :=
  match dict_get d k with
  | Some _ => true
  | None => false
  end.

(** [d[k] = v]: an existing key keeps its place and takes the new value, a
    new key goes last. *)
Fixpoint dict_set {V : Type} (d : list (string * V)) (k : string) (v : V)
    : list (string * V) :=
  match d with
  | [] => [(k, v)]
  | (k', v') :: rest =>
      if String.eqb k' k then (k', v) :: rest else (k', v') :: dict_set rest k v
  end.

Definition dict_keys {V : Type} (d : list (string * V)) : list string :=
  map fst d.

(** ** Binary64 constants and comparison *)

Definition prec : Z := 53.
Definition emax : Z := 1024.

Definition float_of_Z (n : Z) : spec_float := binary_normalize prec emax n 0 false.

Definition f_zero : spec_float := S754_zero false.
Definition f_one : spec_float := Eval vm_compute in float_of_Z 1.
Definition f_hundred : spec_float := Eval vm_compute in float_of_Z 100.

Definition float_lt (x y : spec_float) : bool := SFltb x y.
Definition float_le (x y : spec_float) : bool := SFleb x y.

(** ** [float(s)] for a string

    CPython's [PyFloat_FromString] on an ASCII string: surrounding ASCII
    white space is dropped, underscores may stand between two digits, and
    the rest is a decimal literal (digits with an optional point and an
    optional exponent) or a signed [inf], [infinity] or [nan] in any case.
    The literal is rounded to the nearest binary64 number, ties to even; a
    literal too large gives an infinity, not an error.  (A digit or a space
    outside ASCII, which CPython first maps to ASCII, is not modelled.) *)

Definition is_space (c : ascii) : bool :=
  let n := nat_of_ascii c in
  (Nat.leb 9 n && Nat.leb n 13) || Nat.eqb n 32.

Definition is_digit (c : ascii) : bool :=
  let n := nat_of_ascii c in
  Nat.leb 48 n && Nat.leb n 57.

Definition digit_val (c : ascii) : Z := Z.of_nat (nat_of_ascii c - 48).

Definition to_lower (c : ascii) : ascii :=
  let n := nat_of_ascii c in
  if Nat.leb 65 n && Nat.leb n 90 then ascii_of_nat (n + 32) else c.

Fixpoint lstrip (l : list ascii) : list ascii :=
  match l with
  | c :: rest => if is_space c then lstrip rest else l
  | [] => []
  end.

Definition strip (l : list ascii) : list ascii := rev (lstrip (rev (lstrip l))).

(** The underscore rule of [_Py_string_to_number_with_underscores]: an
    underscore only after a digit and only before a digit. *)
Fixpoint drop_underscores (prev : ascii) (l : list ascii) : option (list ascii) :=
  match l with
  | [] => if Ascii.eqb prev "_" then None else Some []
  | c :: rest =>
      if Ascii.eqb c "_" then
        if is_digit prev then drop_underscores c rest else None
      else if Ascii.eqb prev "_" && negb (is_digit c) then None
      else option_map (cons c) (drop_underscores c rest)
  end.

(** The leading digits of [l], read onto [acc]: the number, how many digits
    were read, and what follows them. *)
Fixpoint take_digits (l : list ascii) (acc : Z) (count : Z) : Z * Z * list ascii :=
  match l with
  | c :: rest =>
      if is_digit c then take_digits rest (10 * acc + digit_val c) (count + 1)
      else (acc, count, l)
  | [] => (acc, count, [])
  end.

Definition take_sign (l : list ascii) : bool * list ascii :=
  match l with
  | c :: rest =>
      if Ascii.eqb c "-" then (true, rest)
      else if Ascii.eqb c "+" then (false, rest)
      else (false, l)
  | [] => (false, [])
  end.

(** An unsigned decimal literal as mantissa and power of ten. *)
Definition parse_decimal (l : list ascii) : option (Z * Z) :=
  let '(ip, n1, r1) := take_digits l 0 0 in
  let '(m, nfrac, r2) :=
    match r1 with
    | c :: r =>
        if Ascii.eqb c "." then take_digits r ip 0 else (ip, 0, r1)
    | [] => (ip, 0, r1)
    end in
  if n1 + nfrac =? 0 then None
  else
    match r2 with
    | [] => Some (m, - nfrac)
    | c :: r3 =>
        if Ascii.eqb (to_lower c) "e" then
          let '(eneg, r4) := take_sign r3 in
          let '(x, nx, r5) := take_digits r4 0 0 in
          match r5 with
          | [] => if nx =? 0 then None else Some (m, cond_Zopp eneg x - nfrac)
          | _ :: _ => None
          end
        else None
    end.

(** [m * 10 ^ e10], signed, rounded to nearest even. *)
Definition float_of_decimal (neg : bool) (m e10 : Z) : spec_float :=
  if m =? 0 then S754_zero neg
  else if 0 <=? e10 then binary_normalize prec emax (cond_Zopp neg (m * 10 ^ e10)) 0 false
  else
    let '(q, e, l) := SFdiv_core_binary prec emax m 0 (10 ^ (- e10)) 0 in
    binary_round_aux prec emax neg q e l.

Definition parse_inf_or_nan (neg : bool) (l : list ascii) : option spec_float :=
  let w := string_of_list_ascii (map to_lower l) in
  if String.eqb w "inf" || String.eqb w "infinity" then Some (S754_infinity neg)
  else if String.eqb w "nan" then Some S754_nan
  else None.

Definition float_of_string (s : string) : option spec_float :=
  match drop_underscores " " (strip (list_ascii_of_string s)) with
  | None => None
  | Some l =>
      let '(neg, l') := take_sign l in
      match parse_decimal l' with
      | Some (m, e10) => Some (float_of_decimal neg m e10)
      | None => parse_inf_or_nan neg l'
      end
  end.

(** ** Python operations the handlers use *)

Fixpoint contains_str (needle hay : string) : bool :=
  if String.prefix needle hay then true
  else
    match hay with
    | EmptyString => false
    | String _ rest => contains_str needle rest
    end.

(** [item in container] for a string [item]: key membership in a [dict],
    element membership in a [list], substring test in a [str]; any other
    JSON value is no container. *)
Definition py_contains (container : pyval) (item : string) : result bool :=
  match container with
  | PDict d => Ok (dict_has d item)
  | PList l =>
      Ok (existsb (fun v => match v with PStr s => String.eqb s item | _ => false end) l)
  | PStr s => Ok (contains_str item s)
  | other =>
      Err (mk_exn TypeError
             ("argument of type '" ++ type_name other ++ "' is not iterable"))
  end.

(** [container[key]] for a string [key]. *)
Definition py_getitem (container : pyval) (key : string) : result pyval :=
  match container with
  | PDict d =>
      match dict_get d key with
      | Some v => Ok v
      | None => Err (mk_exn KeyError ("'" ++ key ++ "'"))
      end
  | PList _ =>
      Err (mk_exn TypeError "list indices must be integers or slices, not str")
  | PStr _ =>
      Err (mk_exn TypeError "string indices must be integers, not 'str'")
  | other =>
      Err (mk_exn TypeError ("'" ++ type_name other ++ "' object is not subscriptable"))
  end.

(** [float(v)]: a float is itself, a bool is 1.0 or 0.0, an int is rounded to
    nearest even and raises [OverflowError] when that leaves the finite
    range, a string is parsed and raises [ValueError] when it is no literal,
    anything else raises [TypeError]. *)
Definition py_float (v : pyval) : result spec_float :=
  match v with
  | PFloat x => Ok x
  | PBool b => Ok (if b then f_one else f_zero)
  | PInt n =>
      match float_of_Z n with
      | S754_infinity _ => Err (mk_exn OverflowError "int too large to convert to float")
      | x => Ok x
      end
  | PStr s =>
      match float_of_string s with
      | Some x => Ok x
      | None => Err (mk_exn ValueError ("could not convert string to float: '" ++ s ++ "'"))
      end
  | other =>
      Err (mk_exn TypeError
             ("float() argument must be a string or a real number, not '"
                ++ type_name other ++ "'"))
  end.

(** [a / b] for [b > 0], rounded to the nearest integer, ties to even. *)
Definition round_half_even_div (a b : Z) : Z :=
  let q := a / b in
  match 2 * (a mod b) ?= b with
  | Lt => q
  | Gt => q + 1
  | Eq => if Z.even q then q else q + 1
  end.

(** [round(x, ndigits)] for a float and [0 <= ndigits]: the exact value of
    [x] is rounded to [ndigits] decimals, ties to even, and that decimal is
    read back as the nearest float.  An infinity, a NaN, a zero or an
    integral value is returned as it is. *)
Definition py_round (x : spec_float) (ndigits : Z) : spec_float :=
  match x with
  | S754_finite s m e =>
      if 0 <=? e then x
      else
        float_of_decimal s
          (round_half_even_div (Zpos m * 10 ^ ndigits) (2 ^ (- e))) (- ndigits)
  | _ => x
  end.

(** [cell == n] as pandas compares the cells of a column with an int. *)
Definition py_eq_int (v : pyval) (n : Z) : bool :=
  match v with
  | PInt m => m =? n
  | PBool b => (if b then 1 else 0) =? n
  | PFloat x => SFeqb x (float_of_Z n)
  | _ => false
  end.

(** ** [POST /predict]: [handle_inference] *)

(** The validated feature vector: a [dict] from feature name to float. *)
Definition feature_vector : Type := list (string * spec_float).

Definition validation_failure (message : string) : response :=
  mk_response 400 (PDict [("success", PBool false); ("message", PStr message)]).

Definition server_error (error_log : exn) : response :=
  mk_response 500 (PDict [("status", PStr "error"); ("details", PStr (exn_text error_log))]).

Definition prediction_success (is_healthy : bool) (confidence : spec_float) : response :=
  mk_response 200
    (PDict
       [("status", PStr "success");
        ("output",
          PDict
            [("label", PStr (if is_healthy then "Benign" else "Malignant"));
             ("is_benign", PBool is_healthy);
             ("confidence", PFloat confidence);
             ("description",
               PStr (if is_healthy
                     then "Analysis complete: The tumor is likely BENIGN."
                     else "Analysis complete: The tumor is likely MALIGNANT."));
             ("disclaimer",
               PStr "For academic purposes only. Seek medical advice for diagnosis.")])]).

(** [except (ValueError, TypeError)]. *)
Definition value_or_type_error (c : exn_class) : bool :=
  match c with
  | ValueError | TypeError => true
  | _ => false
  end.

(** One turn of the validation loop, lines 38 to 47. *)
Definition check_field (data_input : pyval) (validated_metrics : feature_vector)
    (field : string) : outcome feature_vector :=
  present <- call (py_contains data_input field) ;;
  if negb present then Return (validation_failure ("Missing: " ++ field))
  else
    try_except
      (item <- call (py_getitem data_input field) ;;
       val <- call (py_float item) ;;
       if float_lt val f_zero then Raise (mk_exn ValueError "")
       else Done (dict_set validated_metrics field val))
      value_or_type_error
      (fun _ => Return (validation_failure ("Invalid numeric data: " ++ field))).

(** [for field in cancer_detector.feature_names: ...]. *)
Fixpoint validate_fields (fields : list string) (data_input : pyval)
    (validated_metrics : feature_vector) : outcome feature_vector :=
  match fields with
  | [] => Done validated_metrics
  | field :: rest =>
      validated_metrics' <- check_field data_input validated_metrics field ;;
      validate_fields rest data_input validated_metrics'
  end.

Section Inference.

(** The external model wrapper [cancer_detector]: its ordered list of
    required feature names, and [predict], which gives a class indicator
    and a probability or raises. *)
Variable feature_names : list string.
Variable predict : feature_vector -> result (Z * spec_float).

(** The body of the [try] of [handle_inference], for what
    [request.get_json()] gives. *)
Definition inference_body (get_json : result pyval) : outcome Empty_set :=
  data_input <- call get_json ;;
  validated_metrics <- validate_fields feature_names data_input [] ;;
  prediction <- call (predict validated_metrics) ;;
  let '(predicted_class, probability) := prediction in
  let is_healthy := predicted_class =? 1 in
  let score :=
    if is_healthy then probability else SFsub prec emax f_one probability in
  Return (prediction_success is_healthy
            (py_round (SFmul prec emax score f_hundred) 2)).

Definition handle_inference (get_json : result pyval) : response :=
  match inference_body get_json with
  | Done nothing => match nothing with end
  | Return r => r
  | Raise error_log => server_error error_log
  end.

End Inference.

(** Reading a response. *)
Definition body_field (r : response) (key : string) : option pyval :=
  match body r with
  | PDict d => dict_get d key
  | _ => None
  end.

Definition output_field (r : response) (key : string) : option pyval :=
  match body_field r "output" with
  | Some (PDict d) => dict_get d key
  | _ => None
  end.

(** Whether the failure message of [r] mentions [field]. *)
Definition message_names (r : response) (field : string) : bool :=
  match body_field r "message" with
  | Some (PStr m) => contains_str field m
  | _ => false
  end.

(** ** [GET /fetch-samples]: [provide_example_cases] *)

(** A pandas [DataFrame]: the column labels and the rows of cells. *)
Record dataframe : Type := mk_dataframe { columns : list string; rows : list (list pyval) }.

(** What the handler reads from outside: what [pd.read_csv] finds at the
    dataset's path, how often it has been called, and the numbers the random
    generator yields, with how many have been drawn. *)
Record world : Type := mk_world {
  csv_file : result dataframe;
  csv_reads : nat;
  random_numbers : nat -> nat;
  random_drawn : nat
}.

(** A library call that reads or changes the world, and may raise. *)
Definition io (A : Type) : Type := world -> result A * world.

Definition io_ret {A : Type} (a : A) : io A := fun w => (Ok a, w).

Definition io_lift {A : Type} (r : result A) : io A := fun w => (r, w).

Definition io_bind {A B : Type} (m : io A) (k : A -> io B) : io B :=
  fun w =>
    match m w with
    | (Ok a, w') => k a w'
    | (Err e, w') => (Err e, w')
    end.

Notation "x <~ m ;; k" := (io_bind m (fun x => k))
  (at level 61, m at next level, right associativity).

(** [pd.read_csv(path_to_csv)]. *)
Definition read_csv : io dataframe :=
  fun w =>
    (csv_file w,
     mk_world (csv_file w) (S (csv_reads w)) (random_numbers w) (random_drawn w)).

Definition next_random : io nat :=
  fun w =>
    (Ok (random_numbers w (random_drawn w)),
     mk_world (csv_file w) (csv_reads w) (random_numbers w) (S (random_drawn w))).

Fixpoint index_of (name : string) (names : list string) : option nat :=
  match names with
  | [] => None
  | n :: rest =>
      if String.eqb n name then Some O else option_map S (index_of name rest)
  end.

(** [df[name]]: the cells of a column, [KeyError] when there is none. *)
Definition df_column (df : dataframe) (name : string) : result (list pyval) :=
  match index_of name (columns df) with
  | Some i => Ok (map (fun row => nth i row PNone) (rows df))
  | None => Err (mk_exn KeyError ("'" ++ name ++ "'"))
  end.

Fixpoint select_rows {A : Type} (mask : list bool) (l : list A) : list A :=
  match mask, l with
  | b :: mask', x :: l' => if b then x :: select_rows mask' l' else select_rows mask' l'
  | _, _ => []
  end.

(** [df[mask]]. *)
Definition df_where (df : dataframe) (mask : list bool) : dataframe :=
  mk_dataframe (columns df) (select_rows mask (rows df)).

Definition no_rows_error : exn :=
  mk_exn ValueError "a must be greater than 0 unless no samples are taken".

(** [df.sample(n=1)]: one row of [df], chosen by the generator's next
    number; [ValueError] when [df] has no row. *)
Definition df_sample_one (df : dataframe) : io dataframe :=
  match rows df with
  | [] => io_lift (Err no_rows_error)
  | first :: _ =>
      draw <~ next_random ;;
      io_ret (mk_dataframe (columns df)
                [nth (Nat.modulo draw (List.length (rows df))) (rows df) first])
  end.

Definition keep_column (name : string) (item : string * pyval) : bool :=
  negb (String.eqb (fst item) name).

(** [df.drop(columns=[name])]. *)
Definition df_drop_column (df : dataframe) (name : string) : result dataframe :=
  match index_of name (columns df) with
  | None => Err (mk_exn KeyError ("['" ++ name ++ "'] not found in axis"))
  | Some _ =>
      Ok (mk_dataframe
            (filter (fun c => negb (String.eqb c name)) (columns df))
            (map (fun row => map snd (filter (keep_column name) (combine (columns df) row)))
                 (rows df)))
  end.

(** [df.iloc[0].to_dict()]. *)
Definition df_first_to_dict (df : dataframe) : result pyval :=
  match rows df with
  | [] =>
      Err (mk_exn (OtherException "IndexError") "single positional indexer is out-of-bounds")
  | row :: _ => Ok (PDict (combine (columns df) row))
  end.

(** [dataset[dataset['diagnosis'] == label].sample(n=1)
       .drop(columns=['diagnosis']).iloc[0].to_dict()]. *)
Definition sample_case (dataset : dataframe) (label : Z) : io pyval :=
  diagnosis <~ io_lift (df_column dataset "diagnosis") ;;
  picked <~ df_sample_one (df_where dataset (map (fun c => py_eq_int c label) diagnosis)) ;;
  dropped <~ io_lift (df_drop_column picked "diagnosis") ;;
  io_lift (df_first_to_dict dropped).

Definition samples_success (sample_benign sample_malignant : pyval) : response :=
  mk_response 200
    (PDict
       [("success", PBool true);
        ("payload",
          PDict [("benign_case", sample_benign); ("malignant_case", sample_malignant)])]).

Definition samples_failure (e : exn) : response :=
  mk_response 200 (PDict [("success", PBool false); ("error", PStr (exn_text e))]).

(** The body of the [try] of [provide_example_cases]. *)
Definition samples_body : io response :=
  dataset <~ read_csv ;;
  sample_benign <~ sample_case dataset 1 ;;
  sample_malignant <~ sample_case dataset 0 ;;
  io_ret (samples_success sample_benign sample_malignant).

Definition provide_example_cases (w : world) : response * world :=
  match samples_body w with
  | (Ok r, w') => (r, w')
  | (Err e, w') => (samples_failure e, w')
  end.

Definition payload_field (r : response) (key : string) : option pyval :=
  match body_field r "payload" with
  | Some (PDict d) => dict_get d key
  | _ => None
  end.

(** ** What the specification calls valid *)

(** The submitted mapping [d] holds [field], and its value converts to the
    float [x], which is not below zero. *)
Definition passes (d : list (string * pyval)) (field : string) (x : spec_float) : Prop :=
  exists v, dict_get d field = Some v /\ py_float v = Ok x /\ float_lt x f_zero = false.

(** A fully valid submission for the required [fields]. *)
Definition fully_valid (fields : list string) (data_input : pyval) : Prop :=
  exists d, data_input = PDict d /\ forall field, In field fields -> exists x, passes d field x.

(** The vector [vm] carries, for every required field, the float of the
    value submitted in [d]. *)
Definition carries (fields : list string) (d : list (string * pyval))
    (vm : feature_vector) : Prop :=
  forall field, In field fields -> exists x, passes d field x /\ dict_get vm field = Some x.

(** The invariant the specification gives the feature vector. *)
Definition vector_invariant (fields : list string) (v : feature_vector) : Prop :=
  forall field, In field fields ->
    exists x, dict_get v field = Some x /\ float_le f_zero x = true.

(** A JSON null, boolean or number: no container at all. *)
Definition is_scalar (v : pyval) : bool :=
  match v with
  | PNone | PBool _ | PInt _ | PFloat _ => true
  | _ => false
  end.

(** The value [v] is not convertible to a float, or converts to a negative
    one. *)
Definition not_acceptable (v : pyval) : Prop :=
  (exists e, py_float v = Err e) \/
  (exists x, py_float v = Ok x /\ float_lt x f_zero = true).

(** The reading of the 400 rules that takes every failing field by itself:
    whichever required field is missing from [d], the response is a 400 whose
    message names it. *)
Definition every_missing_field_named (fields : list string)
    (predict : feature_vector -> result (Z * spec_float))
    (d : list (string * pyval)) : Prop :=
  forall field, In field fields -> dict_has d field = false ->
    let r := handle_inference fields predict (Ok (PDict d)) in
    status_code r = 400 /\ message_names r field = true.

(** Likewise for a value that is not acceptable. *)
Definition every_invalid_field_named (fields : list string)
    (predict : feature_vector -> result (Z * spec_float))
    (d : list (string * pyval)) : Prop :=
  forall field v, In field fields -> dict_get d field = Some v -> not_acceptable v ->
    let r := handle_inference fields predict (Ok (PDict d)) in
    status_code r = 400 /\ message_names r field = true.

(** A body that is no JSON object is answered with 500. *)
Definition non_object_gives_500 (fields : list string)
    (predict : feature_vector -> result (Z * spec_float)) (v : pyval) : Prop :=
  (forall d, v <> PDict d) ->
  status_code (handle_inference fields predict (Ok v)) = 500.

(** Sample data for the examples: two required features and a model wrapper
    that always answers benign with probability one. *)
Definition two_features : list string := ["radius_mean"; "texture_mean"].

Definition always_benign (v : feature_vector) : result (Z * spec_float) := Ok (1, f_one).

(** The probability 0.92 and a model wrapper that answers benign with it. *)
Definition probability_092 : spec_float :=
  Eval vm_compute in float_of_decimal false 92 (-2).

Definition benign_092 (v : feature_vector) : result (Z * spec_float) :=
  Ok (1, probability_092).

Definition malignant_092 (v : feature_vector) : result (Z * spec_float) :=
  Ok (0, probability_092).

Definition always_failing (v : feature_vector) : result (Z * spec_float) :=
  Err (mk_exn ValueError "Input contains NaN.").

(** The mapping [/fetch-samples] returns for [row]: its cells under their
    column labels, the [diagnosis] column left out. *)
Definition case_of (dataset : dataframe) (row : list pyval) : pyval :=
  PDict
    (combine
       (filter (fun c => negb (String.eqb c "diagnosis")) (columns dataset))
       (map snd (filter (keep_column "diagnosis") (combine (columns dataset) row)))).

(** [row] is a row of [dataset] whose [diagnosis] cell equals [label]. *)
Definition row_with_label (dataset : dataframe) (label : Z) (row : list pyval) : Prop :=
  In row (rows dataset) /\
  exists i, index_of "diagnosis" (columns dataset) = Some i /\
            py_eq_int (nth i row PNone) label = true.

(** The rows [dataset[dataset['diagnosis'] == label]] keeps. *)
Definition labelled_rows (dataset : dataframe) (i : nat) (label : Z) : list (list pyval) :=
  filter (fun row => py_eq_int (nth i row PNone) label) (rows dataset).

Definition has_key (v : pyval) (key : string) : bool :=
  match v with
  | PDict d => dict_has d key
  | _ => false
  end.

Definition sample_submission : pyval :=
  PDict [("radius_mean", PInt 14); ("texture_mean", PStr "20.5"); ("note", PStr "left breast")].

Definition sample_dataset : dataframe :=
  mk_dataframe ["radius_mean"; "diagnosis"; "texture_mean"]
    [[PInt 12; PInt 1; PInt 18]; [PInt 21; PInt 0; PInt 25]; [PInt 11; PInt 1; PInt 15]].

Definition sample_world : world := mk_world (Ok sample_dataset) 0 (fun n => n) 0.

Definition missing_file_error : exn :=
  mk_exn FileNotFoundError "[Errno 2] No such file or directory: 'data/breast_cancer.csv'".

Definition missing_file_world : world := mk_world (Err missing_file_error) 0 (fun n => n) 0.

(** The validated vector as a JSON object of floats, as a client would
    submit it again. *)
Definition as_submission (vm : feature_vector) : pyval :=
  PDict (map (fun item => (fst item, PFloat (snd item))) vm).


(** A generator whose first number is [first] and whose later numbers are
    [second]. *)
Definition two_draws (first second : nat) (drawn : nat) : nat :=
  match drawn with
  | O => first
  | S _ => second
  end.

(** ** Start-up: [initialize_system] *)

(** What start-up meets outside [app.py]: the outcome of each successive
    call of [cancer_detector.load_model()] and of [train_and_save_model()]
    (the import of that name included), the number of calls made so far, and
    the lines printed. *)
Record startup : Type := mk_startup {
  load_outcomes : nat -> result bool;
  train_outcomes : nat -> result unit;
  loads : nat;
  trainings : nat;
  printed : list string
}.

Definition startup_io (A : Type) : Type := startup -> result A * startup.

Definition startup_ret {A : Type} (a : A) : startup_io A := fun s => (Ok a, s).

Definition startup_bind {A B : Type} (m : startup_io A) (k : A -> startup_io B)
    : startup_io B :=
  fun s =>
    match m s with
    | (Ok a, s') => k a s'
    | (Err e, s') => (Err e, s')
    end.

Notation "x <! m ;; k" := (startup_bind m (fun x => k))
  (at level 61, m at next level, right associativity).

Definition load_model : startup_io bool :=
  fun s =>
    (load_outcomes s (loads s),
     mk_startup (load_outcomes s) (train_outcomes s) (S (loads s)) (trainings s) (printed s)).

Definition train_and_save_model : startup_io unit :=
  fun s =>
    (train_outcomes s (trainings s),
     mk_startup (load_outcomes s) (train_outcomes s) (loads s) (S (trainings s)) (printed s)).

Definition print (line : string) : startup_io unit :=
  fun s =>
    (Ok tt,
     mk_startup (load_outcomes s) (train_outcomes s) (loads s) (trainings s)
       (printed s ++ [line])%list).

Definition training_notice : string :=
  "Required weights not found. Running dataset training...".

Definition initialize_system : startup_io unit :=
  loaded <! load_model ;;
  if negb loaded then
    _ <! print training_notice ;;
    _ <! train_and_save_model ;;
    _ <! load_model ;;
    startup_ret tt
  else startup_ret tt.

(** A start-up world where the weights are missing, training works and the
    reload still finds nothing. *)
Definition never_loads : startup :=
  mk_startup (fun _ => Ok false) (fun _ => Ok tt) 0 0 [].

(** A start-up world where the weights are there. *)
Definition weights_present : startup :=
  mk_startup (fun _ => Ok true) (fun _ => Ok tt) 0 0 [].

(** ** Notions for the bounds of binary64 rounding *)

(** The state of a right shift by [k] of the integer [M]. *)
Definition shr_inv (M k : Z) (mrs : shr_record) : Prop :=
  shr_m mrs = M / 2 ^ k /\
  (M mod 2 ^ k = 0 -> shr_r mrs = false /\ shr_s mrs = false).

(** What the bound lemmas conclude: a binary64 number between zero and a
    bound. *)
Definition within (hi x : spec_float) : Prop :=
  valid_binary prec emax x = true /\ float_le f_zero x = true /\ float_le x hi = true.

(** Whether the decimal [k / 100] reads back as a float between 0 and 100. *)
Definition hundredth_ok (k : Z) : bool :=
  let c := float_of_decimal false k (-2) in
  float_le f_zero c && float_le c f_hundred.

(** * Bounds of binary64 rounding *)

Lemma digits_bounds m :
  2 ^ (Zpos (digits2_pos m) - 1) <= Zpos m < 2 ^ Zpos (digits2_pos m).
Proof.
  induction m as [m IH|m IH|]; cbn [digits2_pos].
  - rewrite Pos2Z.inj_succ, (Pos2Z.inj_xI m).
    replace (Z.succ (Zpos (digits2_pos m)) - 1) with (Z.succ (Zpos (digits2_pos m) - 1)) by lia.
    rewrite !Z.pow_succ_r by lia.
    generalize dependent (2 ^ (Z.pos (digits2_pos m) - 1)).
    generalize dependent (2 ^ Z.pos (digits2_pos m)). intros; lia.
  - rewrite Pos2Z.inj_succ, (Pos2Z.inj_xO m).
    replace (Z.succ (Zpos (digits2_pos m)) - 1) with (Z.succ (Zpos (digits2_pos m) - 1)) by lia.
    rewrite !Z.pow_succ_r by lia.
    generalize dependent (2 ^ (Z.pos (digits2_pos m) - 1)).
    generalize dependent (2 ^ Z.pos (digits2_pos m)). intros; lia.
  - cbn. lia.
Qed.

Lemma digits_unique m k :
  2 ^ (k - 1) <= Zpos m < 2 ^ k -> Zpos (digits2_pos m) = k.
Proof.
  intros [Hlo Hhi]. pose proof (digits_bounds m) as [Dlo Dhi].
  set (d := Zpos (digits2_pos m)) in *.
  destruct (Z.lt_trichotomy d k) as [Hlt|[Heq|Hgt]]; [|exact Heq|]; exfalso.
  - assert (2 ^ d <= 2 ^ (k - 1)) by (apply Z.pow_le_mono_r; lia). lia.
  - assert (0 <= k).
    { destruct (Z.le_gt_cases 0 k); [assumption|].
      rewrite (Z.pow_neg_r 2 k) in Hhi by lia. lia. }
    assert (2 ^ k <= 2 ^ (d - 1)) by (apply Z.pow_le_mono_r; lia). lia.
Qed.

Lemma shr_1_inv M k mrs :
  0 <= M -> 0 <= k -> shr_inv M k mrs -> shr_inv M (k + 1) (shr_1 mrs).
Proof.
  intros HM Hk [Hm Hexact].
  assert (Hp : 0 < 2 ^ k) by (apply Z.pow_pos_nonneg; lia).
  assert (Hm0 : 0 <= shr_m mrs) by (rewrite Hm; apply Z.div_pos; lia).
  assert (Hdiv : M / 2 ^ (k + 1) = shr_m mrs / 2).
  { rewrite Z.pow_add_r, Z.pow_1_r, <- Z.div_div, Hm by lia. reflexivity. }
  assert (Hmod : M mod 2 ^ (k + 1) = 0 -> M mod 2 ^ k = 0 /\ shr_m mrs mod 2 = 0).
  { rewrite Z.pow_add_r, Z.pow_1_r by lia. intros H0.
    rewrite Z.rem_mul_r in H0 by lia. rewrite <- Hm in H0.
    pose proof (Z.mod_pos_bound M (2 ^ k) Hp).
    pose proof (Z.mod_pos_bound (shr_m mrs) 2 eq_refl). nia. }
  destruct mrs as [m r s]. cbn [shr_m shr_r shr_s] in *.
  unfold shr_inv. rewrite Hdiv.
  destruct m as [|[p|p|]|p]; cbn [shr_1 shr_m shr_r shr_s]; try lia.
  - split; [reflexivity|]. intros H0. destruct (Hmod H0) as [H1 _].
    destruct (Hexact H1) as [-> ->]. auto.
  - split; [rewrite Pos2Z.inj_xI; apply Z.div_unique with 1; lia|].
    intros H0. destruct (Hmod H0) as [_ H2]. rewrite Pos2Z.inj_xI in H2.
    rewrite Z.add_comm, Z.mul_comm, Z_mod_plus_full in H2. discriminate.
  - split; [rewrite Pos2Z.inj_xO; apply Z.div_unique with 0; lia|].
    intros H0. destruct (Hmod H0) as [H1 _]. destruct (Hexact H1) as [-> ->]. auto.
  - split; [reflexivity|]. intros H0. destruct (Hmod H0) as [_ H2]. discriminate.
Qed.

Lemma iter_shr_inv p : forall M k mrs,
  0 <= M -> 0 <= k -> shr_inv M k mrs -> shr_inv M (k + Zpos p) (iter_pos shr_1 p mrs).
Proof.
  induction p as [p IH|p IH|]; intros M k mrs HM Hk H; cbn [iter_pos].
  - replace (k + Zpos p~1) with (k + 1 + Zpos p + Zpos p) by lia.
    apply IH; try lia. apply IH; try lia. now apply shr_1_inv.
  - replace (k + Zpos p~0) with (k + Zpos p + Zpos p) by lia.
    apply IH; try lia. now apply IH.
  - now apply shr_1_inv.
Qed.

Lemma shr_spec m e n :
  0 <= m -> 0 <= n ->
  snd (shr (Build_shr_record m false false) e n) = e + n /\
  shr_inv m n (fst (shr (Build_shr_record m false false) e n)).
Proof.
  intros Hm Hn.
  assert (H0 : shr_inv m 0 (Build_shr_record m false false)).
  { split; cbn; [now rewrite Z.div_1_r | auto]. }
  destruct n as [|p|p]; cbn [shr fst snd]; try lia.
  - split; [lia | exact H0].
  - split; [reflexivity|]. apply (iter_shr_inv p m 0 _ Hm (Z.le_refl 0) H0).
Qed.

Lemma round_cases mrs :
  let m1 := round_nearest_even (shr_m mrs) (loc_of_shr_record mrs) in
  m1 = shr_m mrs \/ (m1 = shr_m mrs + 1 /\ (shr_r mrs = true \/ shr_s mrs = true)).
Proof.
  destruct mrs as [m [|] [|]]; cbn; try destruct (Z.even m); auto.
Qed.

Lemma fexp_eq x : fexp prec emax x = Z.max (x - 53) (-1074).
Proof. reflexivity. Qed.

Lemma digits_le_53 q : Zpos q < 2 ^ 53 -> Zpos (digits2_pos q) <= 53.
Proof.
  intros H. pose proof (digits_bounds q) as [Hlo _].
  assert (Hlt : 2 ^ (Zpos (digits2_pos q) - 1) < 2 ^ 53) by lia.
  apply Z.pow_lt_mono_r_iff in Hlt; lia.
Qed.

(** The second alignment of [binary_round_aux]: a rounded mantissa of at
    most 53 bits stays, one of 54 bits (the power [2 ^ 53]) is halved. *)
Lemma normalize_spec q e1 :
  -1074 <= e1 ->
  Zpos q <= 2 ^ 53 ->
  2 ^ 52 <= Zpos q \/ e1 = -1074 ->
  let r := shr_fexp prec emax (Zpos q) e1 loc_Exact in
  (Zpos q < 2 ^ 53 /\ shr_m (fst r) = Zpos q /\ snd r = e1 /\
   fexp prec emax (Zpos (digits2_pos q) + e1) = e1) \/
  (Zpos q = 2 ^ 53 /\ shr_m (fst r) = 2 ^ 52 /\ snd r = e1 + 1).
Proof.
  intros He Hq Hnorm. cbv zeta. unfold shr_fexp. cbn [Zdigits2 shr_record_of_loc].
  destruct (Z.eq_dec (Zpos q) (2 ^ 53)) as [Heq|Hne].
  - right. injection Heq as ->. rewrite fexp_eq.
    replace (Z.max _ _ - e1) with 1 by (cbn [digits2_pos Pos.succ]; lia).
    repeat split.
  - left. assert (Hlt : Zpos q < 2 ^ 53) by lia.
    pose proof (digits_le_53 q Hlt) as Hd.
    assert (Hfexp : fexp prec emax (Zpos (digits2_pos q) + e1) = e1).
    { rewrite fexp_eq. destruct Hnorm as [Hlo|He1]; [|lia].
      rewrite (digits_unique q 53) by (split; [exact Hlo | exact Hlt]). lia. }
    rewrite Hfexp, Z.sub_diag. cbn [shr fst snd shr_m]. auto.
Qed.

Lemma pow2_split a b : 0 <= a -> 0 <= b -> 2 ^ (a + b) = 2 ^ a * 2 ^ b.
Proof. intros. now apply Z.pow_add_r. Qed.

Lemma binary_round_aux_eq sx mx ex :
  binary_round_aux prec emax sx (Zpos mx) ex loc_Exact
  = let r1 := shr (Build_shr_record (Zpos mx) false false) ex
                (fexp prec emax (Zpos (digits2_pos mx) + ex) - ex) in
    let r2 := shr_fexp prec emax
                (round_nearest_even (shr_m (fst r1)) (loc_of_shr_record (fst r1)))
                (snd r1) loc_Exact in
    match shr_m (fst r2) with
    | 0 => S754_zero sx
    | Zpos m =>
        if snd r2 <=? emax - prec then S754_finite sx m (snd r2) else S754_infinity sx
    | Zneg _ => S754_nan
    end.
Proof.
  unfold binary_round_aux, shr_fexp. cbv zeta.
  change (shr_record_of_loc (Zpos mx) loc_Exact)
    with (Build_shr_record (Zpos mx) false false).
  change (Zdigits2 (Zpos mx)) with (Zpos (digits2_pos mx)).
  destruct (shr (Build_shr_record (Zpos mx) false false) ex _) as [mrs' e'].
  cbn [fst snd].
  destruct (shr (shr_record_of_loc _ loc_Exact) e' _) as [mrs'' e'']. reflexivity.
Qed.

(** Rounding an exact positive value that does not exceed the normal
    binary64 number [Mb * 2 ^ Eb] gives a zero or a binary64 number that does
    not exceed it. *)
Lemma round_aux_le sx mx ex Mb Eb :
  ex <= fexp prec emax (Zpos (digits2_pos mx) + ex) ->
  2 ^ 52 <= Zpos Mb < 2 ^ 53 ->
  -1074 <= Eb <= 971 ->
  ex <= Eb ->
  Zpos mx <= Zpos Mb * 2 ^ (Eb - ex) ->
  binary_round_aux prec emax sx (Zpos mx) ex loc_Exact = S754_zero sx \/
  exists m e,
    binary_round_aux prec emax sx (Zpos mx) ex loc_Exact = S754_finite sx m e /\
    bounded prec emax m e = true /\
    (e < Eb \/ (e = Eb /\ Zpos m <= Zpos Mb)).
Proof.
  intros Hn HMb HEb Hex Hval.
  rewrite binary_round_aux_eq. cbv zeta.
  pose proof (digits_bounds mx) as [Dlo Dhi].
  set (d := Zpos (digits2_pos mx)) in *.
  set (e1 := fexp prec emax (d + ex)) in *.
  assert (He1 : e1 = Z.max (d + ex - 53) (-1074)) by reflexivity.
  set (n := e1 - ex) in *.
  assert (Hn0 : 0 <= n) by (unfold n; lia).
  destruct (shr_spec (Zpos mx) ex n (Pos2Z.is_nonneg mx) Hn0) as [He' [Hm' Hexact]].
  set (r1 := shr (Build_shr_record (Zpos mx) false false) ex n) in *.
  replace (snd r1) with e1 by (unfold n in He'; lia).
  set (mrs' := fst r1) in *. clearbody mrs'. clear r1 He'.
  assert (Hpn : 0 < 2 ^ n) by (apply Z.pow_pos_nonneg; lia).
  (* the bound, scaled to the exponent [e1] *)
  assert (He1Eb : e1 <= Eb).
  { assert (Hlt : 2 ^ (d - 1) < 2 ^ (53 + (Eb - ex))).
    { rewrite pow2_split by lia.
      assert (0 < 2 ^ (Eb - ex)) by (apply Z.pow_pos_nonneg; lia). nia. }
    apply Z.pow_lt_mono_r_iff in Hlt; lia. }
  set (K := Zpos Mb * 2 ^ (Eb - e1)).
  assert (HK : Zpos mx <= K * 2 ^ n).
  { unfold K. rewrite <- Z.mul_assoc, <- pow2_split by (unfold n; lia).
    replace (Eb - e1 + n) with (Eb - ex) by (unfold n; lia). exact Hval. }
  assert (Hm'K : shr_m mrs' <= K).
  { rewrite Hm'. apply Z.div_le_upper_bound; lia. }
  assert (Hm'0 : 0 <= shr_m mrs') by (rewrite Hm'; apply Z.div_pos; lia).
  pose proof (round_cases mrs') as Hround. cbv zeta in Hround.
  set (m1 := round_nearest_even (shr_m mrs') (loc_of_shr_record mrs')) in *.
  assert (Hm1K : m1 <= K).
  { destruct Hround as [->|[-> Hinexact]]; [exact Hm'K|].
    assert (Hnz : Zpos mx mod 2 ^ n <> 0).
    { intros H0. destruct (Hexact H0) as [Hr Hs].
      destruct Hinexact; congruence. }
    assert (shr_m mrs' < K); [|lia].
    rewrite Hm'. apply Z.div_lt_upper_bound; [lia|].
    destruct (Z.eq_dec (Zpos mx) (K * 2 ^ n)) as [Heq|Hneq]; [|lia].
    elim Hnz. rewrite Heq. apply Z_mod_mult. }
  assert (Hm'range : shr_m mrs' < 2 ^ 53 /\
                     (2 ^ 52 <= shr_m mrs' \/ (e1 = -1074 /\ shr_m mrs' < 2 ^ 52))).
  { rewrite Hm'. destruct (Z.le_gt_cases (-1074) (d + ex - 53)) as [Hnormal|Hsub].
    - assert (Hnd : d = 53 + n) by (unfold n; lia).
      rewrite Hnd in Dlo, Dhi.
      replace (53 + n - 1) with (52 + n) in Dlo by lia.
      rewrite pow2_split in Dlo, Dhi by lia.
      split; [apply Z.div_lt_upper_bound; lia|].
      left. apply Z.div_le_lower_bound; lia.
    - assert (Hd : d <= 52 + n) by (unfold n; lia).
      assert (Hpow : 2 ^ d <= 2 ^ (52 + n)) by (apply Z.pow_le_mono_r; lia).
      rewrite pow2_split in Hpow by lia.
      assert (Zpos mx / 2 ^ n < 2 ^ 52) by (apply Z.div_lt_upper_bound; lia).
      split; [lia|]. right. split; [lia | assumption]. }
  assert (Hm1range : 0 <= m1 <= 2 ^ 53 /\ (2 ^ 52 <= m1 \/ e1 = -1074)).
  { destruct Hround as [->|[-> _]]; lia. }
  clearbody m1. clear Hround.
  destruct m1 as [|q|q]; [| |lia].
  - (* the value rounds to zero *)
    left. unfold shr_fexp. cbn [Zdigits2 shr_record_of_loc].
    rewrite fexp_eq.
    destruct (Z.max (0 + e1 - 53) (-1074) - e1) eqn:Hshift;
      [reflexivity | exfalso; lia | reflexivity].
  - right.
    pose proof (normalize_spec q e1 ltac:(lia) ltac:(lia) ltac:(lia)) as Hnz.
    cbv zeta in Hnz.
    destruct (shr_fexp prec emax (Zpos q) e1 loc_Exact) as [mrs'' e''].
    cbn [fst snd] in *.
    destruct Hnz as [(Hq & Hm'' & -> & Hcanon)|(Hq & Hm'' & ->)]; rewrite Hm''.
    + assert (Hle : (e1 <=? emax - prec) = true) by (apply Z.leb_le; unfold emax, prec; lia).
      rewrite Hle. exists q, e1. split; [reflexivity|]. split.
      * unfold bounded, canonical_mantissa. rewrite Hcanon, Z.eqb_refl. exact Hle.
      * destruct (Z.eq_dec e1 Eb) as [Heq|Hne]; [right|left; lia].
        split; [exact Heq|]. unfold K in Hm1K. rewrite Heq, Z.sub_diag in Hm1K. lia.
    + assert (He1lt : e1 < Eb).
      { destruct (Z.eq_dec e1 Eb) as [Heq|Hne]; [|lia].
        unfold K in Hm1K. rewrite Heq, Z.sub_diag in Hm1K. lia. }
      assert (Hle : (e1 + 1 <=? emax - prec) = true)
        by (apply Z.leb_le; unfold emax, prec; lia).
      change (2 ^ 52) with (Zpos 4503599627370496).
      cbv beta iota. rewrite Hle.
      exists 4503599627370496%positive, (e1 + 1). split; [reflexivity|]. split.
      * unfold bounded, canonical_mantissa. rewrite Hle, andb_true_r.
        apply Z.eqb_eq. rewrite fexp_eq. cbn [digits2_pos Pos.succ]. lia.
      * destruct (Z.eq_dec (e1 + 1) Eb) as [Heq|Hne]; [right|left; lia].
        split; [exact Heq|]. change (Zpos 4503599627370496) with (2 ^ 52). lia.
Qed.

Lemma bounded_inv m e :
  bounded prec emax m e = true ->
  Zpos m < 2 ^ 53 /\ -1074 <= e <= 971 /\
  (2 ^ 52 <= Zpos m \/ e = -1074).
Proof.
  unfold bounded, canonical_mantissa. rewrite andb_true_iff, Z.eqb_eq, Z.leb_le, fexp_eq.
  intros [Hcanon Hmax]. pose proof (digits_bounds m) as [Dlo Dhi].
  set (d := Zpos (digits2_pos m)) in *.
  assert (Hd : d <= 53) by lia.
  assert (Hpow : 2 ^ d <= 2 ^ 53) by (apply Z.pow_le_mono_r; lia).
  split; [lia|]. split; [unfold emax, prec in Hmax; lia|].
  destruct (Z.eq_dec e (-1074)) as [He|He]; [now right|left].
  assert (d = 53) by lia. subst d. rewrite H in Dlo. exact Dlo.
Qed.

(** [x <= B] for a non-negative binary64 number [x] and a normal bound. *)
Lemma le_bound_inv m e Mb Eb :
  bounded prec emax m e = true ->
  2 ^ 52 <= Zpos Mb ->
  float_le (S754_finite false m e) (S754_finite false Mb Eb) = true ->
  e <= Eb /\ Zpos m <= Zpos Mb * 2 ^ (Eb - e).
Proof.
  intros Hb HMb. destruct (bounded_inv m e Hb) as (Hm & He & _).
  unfold float_le, SFleb, SFcompare.
  destruct (Z.compare_spec e Eb) as [->|Hlt|Hgt]; [| |discriminate].
  - change (Pos.compare_cont Eq m Mb) with (Pos.compare m Mb).
    destruct (Pos.compare_spec m Mb) as [->|Hlt|Hgt]; try discriminate; intros _;
      rewrite Z.sub_diag; split; lia.
  - intros _. split; [lia|].
    assert (Hpow : 2 ^ 1 <= 2 ^ (Eb - e)) by (apply Z.pow_le_mono_r; lia).
    change (2 ^ 1) with 2 in Hpow. nia.
Qed.

Lemma le_bound_intro m e Mb Eb :
  e < Eb \/ (e = Eb /\ Zpos m <= Zpos Mb) ->
  float_le (S754_finite false m e) (S754_finite false Mb Eb) = true.
Proof.
  unfold float_le, SFleb, SFcompare. intros [Hlt|[-> Hle]].
  - now rewrite (proj2 (Z.compare_lt_iff e Eb) Hlt).
  - rewrite Z.compare_refl. change (Pos.compare_cont Eq m Mb) with (Pos.compare m Mb).
    destruct (Pos.compare_spec m Mb); try reflexivity. lia.
Qed.

Lemma round_result_within r Mb Eb :
  (r = S754_zero false \/
   exists m e, r = S754_finite false m e /\ bounded prec emax m e = true /\
               (e < Eb \/ (e = Eb /\ Zpos m <= Zpos Mb))) ->
  within (S754_finite false Mb Eb) r.
Proof.
  intros [->|(m & e & -> & Hb & Hle)].
  - repeat split.
  - split; [exact Hb|]. split; [reflexivity|]. now apply le_bound_intro.
Qed.

Lemma shl_align_spec mx ex ex' :
  (ex' <= ex ->
   Zpos (fst (shl_align mx ex ex')) = Zpos mx * 2 ^ (ex - ex') /\
   snd (shl_align mx ex ex') = ex') /\
  (ex <= ex' -> shl_align mx ex ex' = (mx, ex)).
Proof.
  unfold shl_align. destruct (ex' - ex) as [|p|p] eqn:Hd.
  - assert (ex' = ex) by lia. subst ex'. rewrite Z.sub_diag, Z.mul_1_r. auto.
  - split; [lia|auto].
  - split; [|lia]. intros _. cbn [fst snd]. split; [|reflexivity].
    replace (ex - ex') with (Zpos p) by lia.
    change (Pos.iter xO mx p) with (shift_pos p mx).
    rewrite shift_pos_correct. change (Z.pow_pos 2 p) with (2 ^ Zpos p). lia.
Qed.

Lemma digits_shift mx k :
  0 <= k -> forall mz, Zpos mz = Zpos mx * 2 ^ k ->
  Zpos (digits2_pos mz) = Zpos (digits2_pos mx) + k.
Proof.
  intros Hk mz Hmz. pose proof (digits_bounds mx) as [Dlo Dhi].
  assert (Hp : 0 < 2 ^ k) by (apply Z.pow_pos_nonneg; lia).
  apply digits_unique. rewrite Hmz.
  replace (Zpos (digits2_pos mx) + k - 1) with (Zpos (digits2_pos mx) - 1 + k) by lia.
  rewrite !pow2_split by lia. split; nia.
Qed.

Lemma binary_round_le sx mx ex Mb Eb :
  2 ^ 52 <= Zpos Mb < 2 ^ 53 ->
  -1074 <= Eb <= 971 ->
  ex <= Eb ->
  Zpos mx <= Zpos Mb * 2 ^ (Eb - ex) ->
  binary_round prec emax sx mx ex = S754_zero sx \/
  exists m e,
    binary_round prec emax sx mx ex = S754_finite sx m e /\
    bounded prec emax m e = true /\
    (e < Eb \/ (e = Eb /\ Zpos m <= Zpos Mb)).
Proof.
  intros HMb HEb Hex Hval. unfold binary_round.
  set (e' := fexp prec emax (Zpos (digits2_pos mx) + ex)).
  destruct (shl_align_spec mx ex e') as [Hshift Hkeep].
  destruct (Z.le_gt_cases ex e') as [Hle|Hgt].
  - rewrite (Hkeep Hle). now apply round_aux_le.
  - destruct (Hshift ltac:(lia)) as [Hmz Hez].
    destruct (shl_align mx ex e') as [mz ez]. cbn [fst snd] in Hmz, Hez. subst ez.
    apply round_aux_le; try assumption; try lia.
    + rewrite (digits_shift mx (ex - e') ltac:(lia) mz Hmz).
      replace (Zpos (digits2_pos mx) + (ex - e') + e')
        with (Zpos (digits2_pos mx) + ex) by lia.
      fold e'. lia.
    + rewrite Hmz. replace (Eb - e') with (Eb - ex + (ex - e')) by lia.
      rewrite pow2_split by lia.
      assert (0 < 2 ^ (ex - e')) by (apply Z.pow_pos_nonneg; lia). nia.
Qed.

Lemma f_one_eq : f_one = S754_finite false 4503599627370496 (-52).
Proof. reflexivity. Qed.

Lemma f_hundred_eq : f_hundred = S754_finite false 7036874417766400 (-46).
Proof. reflexivity. Qed.

(** A binary64 number between 0 and 1 is a zero or a positive finite number
    [m * 2 ^ e] with [m <= 2 ^ (- e)]. *)
Lemma within_one_inv x :
  within f_one x ->
  (exists s, x = S754_zero s) \/
  exists m e, x = S754_finite false m e /\ bounded prec emax m e = true /\
              e <= -52 /\ Zpos m <= 2 ^ (- e).
Proof.
  intros (Hvalid & Hlo & Hhi).
  destruct x as [s|s| |s m e]; try discriminate.
  - left. now exists s.
  - destruct s; discriminate.
  - destruct s; [discriminate|]. right. exists m, e.
    cbn [valid_binary] in Hvalid. rewrite f_one_eq in Hhi.
    destruct (le_bound_inv m e 4503599627370496 (-52) Hvalid (Z.le_refl _) Hhi) as [He Hm].
    repeat split; auto.
    replace (- e) with (52 + (-52 - e)) by lia. rewrite pow2_split by lia.
    change (2 ^ 52) with 4503599627370496. lia.
Qed.

(** [score * 100] stays between 0 and 100. *)
Lemma mul_hundred_within s :
  within f_one s -> within f_hundred (SFmul prec emax s f_hundred).
Proof.
  intros Hs. destruct (within_one_inv s Hs) as [[b ->]|(m & e & -> & Hb & He & Hm)].
  - destruct b; repeat split.
  - rewrite f_hundred_eq. cbn [SFmul xorb].
    apply round_result_within. apply round_aux_le; try lia.
    + pose proof (digits_bounds (m * 7036874417766400)) as [_ Dhi].
      set (d := Zpos (digits2_pos (m * 7036874417766400))) in *.
      assert (Hlt : 2 ^ 52 < 2 ^ d) by lia.
      apply Z.pow_lt_mono_r_iff in Hlt; [|lia|lia]. rewrite fexp_eq. lia.
    + replace (-46 - (e + -46)) with (- e) by lia. nia.
Qed.

(** [1.0 - probability] stays between 0 and 1. *)
Lemma one_minus_within p :
  within f_one p -> within f_one (SFsub prec emax f_one p).
Proof.
  intros Hp. destruct (within_one_inv p Hp) as [[b ->]|(m & e & -> & Hb & He & Hm)].
  - repeat split.
  - rewrite f_one_eq. cbn [SFsub cond_Zopp].
    rewrite Z.min_r by lia.
    destruct (shl_align_spec 4503599627370496 (-52) e) as [Hone _].
    destruct (Hone He) as [Hone' _]. rewrite Hone'.
    destruct (shl_align_spec m e e) as [_ Hsame]. rewrite (Hsame (Z.le_refl e)).
    cbn [fst].
    replace (Zpos 4503599627370496 * 2 ^ (-52 - e)) with (2 ^ (- e)).
    2:{ replace (- e) with (52 + (-52 - e)) by lia. now rewrite pow2_split by lia. }
    destruct (2 ^ (- e) - Zpos m) as [|diff|diff] eqn:Hdiff; [| |lia].
    + repeat split.
    + cbn [binary_normalize]. apply round_result_within.
      apply binary_round_le; try lia.
      replace (-52 - e) with (- e - 52) by lia.
      assert (Hpow : 2 ^ (- e) = 2 ^ (- e - 52) * 2 ^ 52).
      { rewrite <- pow2_split by lia. f_equal. lia. }
      change (2 ^ 52) with 4503599627370496 in Hpow. lia.
Qed.

Lemma round_half_even_div_range a b N :
  0 < b -> 0 <= a <= N * b -> 0 <= round_half_even_div a b <= N.
Proof.
  intros Hb [Ha0 HaN]. unfold round_half_even_div.
  pose proof (Z.div_mod a b ltac:(lia)) as Hdm.
  pose proof (Z.mod_pos_bound a b Hb) as Hmod.
  assert (Hq0 : 0 <= a / b) by (apply Z.div_pos; lia).
  assert (HqN : a / b <= N) by (apply Z.div_le_upper_bound; lia).
  destruct (Z.compare_spec (2 * (a mod b)) b) as [Heq|Hlt|Hgt].
  - destruct (Z.even (a / b)); [lia|]. nia.
  - lia.
  - nia.
Qed.

Lemma forallb_seq_Z (f : Z -> bool) (len : nat) (n : Z) :
  forallb (fun k => f (Z.of_nat k)) (seq 0 len) = true ->
  0 <= n < Z.of_nat len -> f n = true.
Proof.
  intros H Hn. rewrite forallb_forall in H.
  specialize (H (Z.to_nat n)). rewrite Z2Nat.id in H by lia.
  apply H, in_seq. lia.
Qed.

Lemma hundredths_checked :
  forallb (fun k => hundredth_ok (Z.of_nat k)) (seq 0 (Z.to_nat 10001)) = true.
Proof. vm_compute. reflexivity. Qed.

Lemma hundredth_in_range n :
  0 <= n <= 10000 ->
  float_le f_zero (float_of_decimal false n (-2)) = true /\
  float_le (float_of_decimal false n (-2)) f_hundred = true.
Proof.
  intros Hn. apply andb_true_iff.
  change (hundredth_ok n = true).
  apply (forallb_seq_Z hundredth_ok (Z.to_nat 10001) n); [exact hundredths_checked|].
  lia.
Qed.

(** [round(t, 2)] stays between 0 and 100. *)
Lemma round_two_within t :
  within f_hundred t ->
  float_le f_zero (py_round t 2) = true /\ float_le (py_round t 2) f_hundred = true.
Proof.
  intros (Hvalid & Hlo & Hhi).
  destruct t as [s|s| |s m e]; try discriminate; cbn [py_round]; [now split| |].
  - destruct s; discriminate.
  - destruct (0 <=? e) eqn:He; [now split|]. apply Z.leb_gt in He.
    destruct s; [discriminate|].
    cbn [valid_binary] in Hvalid. rewrite f_hundred_eq in Hhi.
    destruct (le_bound_inv m e 7036874417766400 (-46) Hvalid ltac:(lia) Hhi) as [He' Hm].
    apply hundredth_in_range. apply round_half_even_div_range.
    + apply Z.pow_pos_nonneg; lia.
    + split; [lia|]. change (10 ^ 2) with 100.
      assert (Hpow : 2 ^ (- e) = 2 ^ 46 * 2 ^ (-46 - e)).
      { rewrite <- pow2_split by lia. f_equal. lia. }
      change (2 ^ 46) with 70368744177664 in Hpow. nia.
Qed.

(** * Properties of [handle_inference] *)

Lemma bind_done {A B : Type} (a : A) (k : A -> outcome B) : bind (Done a) k = k a.
Proof. reflexivity. Qed.

Lemma check_field_passes d vm field x :
  passes d field x -> check_field (PDict d) vm field = Done (dict_set vm field x).
Proof.
  intros (v & Hget & Hfloat & Hlt).
  unfold check_field, py_contains, dict_has, py_getitem.
  rewrite Hget. cbn. rewrite Hfloat. cbn. rewrite Hlt. reflexivity.
Qed.

Lemma check_field_missing d vm field :
  dict_has d field = false ->
  check_field (PDict d) vm field = Return (validation_failure ("Missing: " ++ field)).
Proof.
  intros Hhas. unfold check_field, py_contains. rewrite Hhas. reflexivity.
Qed.

Lemma check_field_rejected d vm field v e :
  dict_get d field = Some v ->
  py_float v = Err e ->
  value_or_type_error (exn_cls e) = true ->
  check_field (PDict d) vm field
  = Return (validation_failure ("Invalid numeric data: " ++ field)).
Proof.
  intros Hget Hfloat Hcls.
  unfold check_field, py_contains, dict_has, py_getitem.
  rewrite Hget. cbn. rewrite Hfloat. cbn. rewrite Hcls. reflexivity.
Qed.

Lemma check_field_negative d vm field v x :
  dict_get d field = Some v ->
  py_float v = Ok x ->
  float_lt x f_zero = true ->
  check_field (PDict d) vm field
  = Return (validation_failure ("Invalid numeric data: " ++ field)).
Proof.
  intros Hget Hfloat Hlt.
  unfold check_field, py_contains, dict_has, py_getitem.
  rewrite Hget. cbn. rewrite Hfloat. cbn. rewrite Hlt. reflexivity.
Qed.

Lemma validate_fields_cons f rest data_input vm :
  validate_fields (f :: rest) data_input vm
  = bind (check_field data_input vm f) (validate_fields rest data_input).
Proof. reflexivity. Qed.

Lemma validate_fields_app pre post data_input vm :
  validate_fields (pre ++ post) data_input vm
  = bind (validate_fields pre data_input vm) (validate_fields post data_input).
Proof.
  revert vm. induction pre as [|f pre IH]; intros vm.
  - reflexivity.
  - cbn [app]. rewrite !validate_fields_cons.
    destruct (check_field data_input vm f); cbn [bind]; auto.
Qed.

Lemma validate_fields_pass fields d vm :
  (forall field, In field fields -> exists x, passes d field x) ->
  exists vm', validate_fields fields (PDict d) vm = Done vm'.
Proof.
  revert vm. induction fields as [|f fields IH]; intros vm Hall.
  - now exists vm.
  - destruct (Hall f (or_introl eq_refl)) as [x Hx].
    rewrite validate_fields_cons, (check_field_passes _ vm _ _ Hx). cbn [bind].
    apply IH. intros g Hg. apply Hall. now right.
Qed.

Lemma prefix_same s : String.prefix s s = true.
Proof.
  induction s as [|c s IH]; cbn; [reflexivity|].
  destruct (ascii_dec c c); [exact IH | congruence].
Qed.

Lemma contains_str_suffix pre s : contains_str s (pre ++ s) = true.
Proof.
  induction pre as [|c pre IH]; cbn [String.append].
  - destruct s as [|a s]; [reflexivity|].
    cbn [contains_str]. now rewrite prefix_same.
  - cbn [contains_str]. now destruct (String.prefix s (String c (pre ++ s))).
Qed.

Lemma message_names_suffix pre field :
  message_names (validation_failure (pre ++ field)) field = true.
Proof. exact (contains_str_suffix pre field). Qed.

Lemma check_field_done_inv data_input vm field vm' :
  check_field data_input vm field = Done vm' ->
  exists item x,
    py_contains data_input field = Ok true /\
    py_getitem data_input field = Ok item /\
    py_float item = Ok x /\
    float_lt x f_zero = false /\
    vm' = dict_set vm field x.
Proof.
  unfold check_field.
  destruct (py_contains data_input field) as [[|]|e] eqn:Hin; cbn; try discriminate.
  destruct (py_getitem data_input field) as [item|e] eqn:Hitem; cbn;
    [|destruct (value_or_type_error _); discriminate].
  destruct (py_float item) as [x|e] eqn:Hx; cbn;
    [|destruct (value_or_type_error _); discriminate].
  destruct (float_lt x f_zero) eqn:Hlt; cbn; [discriminate|].
  intros [= <-]. exists item, x. repeat split; assumption.
Qed.

(** A validation that stops, with a response or an exception, stops at the
    first field, in list order, whose check does not pass. *)
Lemma validate_fields_stops fields data_input vm o :
  validate_fields fields data_input vm = o ->
  (forall vm', o <> Done vm') ->
  exists pre field post vm',
    fields = (pre ++ field :: post)%list /\
    validate_fields pre data_input vm = Done vm' /\
    check_field data_input vm' field = o.
Proof.
  revert vm. induction fields as [|f fields IH]; intros vm Ho Hstop.
  - cbn in Ho. now elim (Hstop vm).
  - rewrite validate_fields_cons in Ho.
    destruct (check_field data_input vm f) as [vm1|r1|e1] eqn:Hf; cbn [bind] in Ho.
    + destruct (IH _ Ho Hstop) as (pre & g & post & vm' & -> & Hpre & Hg).
      exists (f :: pre), g, post, vm'. repeat split; auto.
      now rewrite validate_fields_cons, Hf.
    + exists [], f, fields, vm. repeat split; congruence.
    + exists [], f, fields, vm. repeat split; congruence.
Qed.

Lemma dict_keys_set {V : Type} (d : list (string * V)) k v key :
  In key (dict_keys (dict_set d k v)) <-> In key (dict_keys d) \/ key = k.
Proof.
  induction d as [|[k' v'] d IH]; cbn.
  - intuition.
  - destruct (String.eqb_spec k' k) as [->|Hne]; cbn.
    + intuition.
    + rewrite IH. intuition.
Qed.

Lemma dict_keys_set_nodup {V : Type} (d : list (string * V)) k v :
  NoDup (dict_keys d) -> NoDup (dict_keys (dict_set d k v)).
Proof.
  induction d as [|[k' v'] d IH]; cbn; intros Hnd.
  - constructor; [intros []|constructor].
  - inversion Hnd as [|? ? Hnotin Hnd']; subst.
    destruct (String.eqb_spec k' k) as [->|Hne]; cbn.
    + now constructor.
    + constructor; [|now apply IH].
      intros Hin. apply dict_keys_set in Hin. destruct Hin as [Hin| ->]; auto.
Qed.

Lemma validate_fields_keys fields data_input vm vm' :
  validate_fields fields data_input vm = Done vm' ->
  (forall key, In key (dict_keys vm') <-> In key (dict_keys vm) \/ In key fields) /\
  (NoDup (dict_keys vm) -> NoDup (dict_keys vm')).
Proof.
  revert vm. induction fields as [|f fields IH]; intros vm.
  - intros [= <-]. split; [intros key; cbn; intuition | auto].
  - rewrite validate_fields_cons.
    destruct (check_field data_input vm f) as [vm1|r1|e1] eqn:Hf; cbn [bind];
      try discriminate.
    intros H. destruct (IH _ H) as [Hkeys Hnd].
    destruct (check_field_done_inv _ _ _ _ Hf) as (item & x & _ & _ & _ & _ & ->).
    split.
    + intros key. rewrite Hkeys, dict_keys_set. cbn. intuition.
    + intros Hvm. apply Hnd. now apply dict_keys_set_nodup.
Qed.

Lemma dict_get_set_same {V : Type} (d : list (string * V)) k v :
  dict_get (dict_set d k v) k = Some v.
Proof.
  induction d as [|[k' v'] d IH]; cbn.
  - now rewrite String.eqb_refl.
  - destruct (String.eqb k' k) eqn:Hk; cbn; rewrite Hk; [reflexivity | exact IH].
Qed.

Lemma dict_get_set_other {V : Type} (d : list (string * V)) k v key :
  key <> k -> dict_get (dict_set d k v) key = dict_get d key.
Proof.
  intros Hne. induction d as [|[k' v'] d IH]; cbn.
  - destruct (String.eqb_spec k key); [congruence | reflexivity].
  - destruct (String.eqb_spec k' k) as [->|Hk]; cbn.
    + destruct (String.eqb_spec k key); [congruence | reflexivity].
    + now rewrite IH.
Qed.

(** What a completed validation of a submitted mapping leaves in the
    vector: at every checked field the float of the submitted value, and at
    any other key what was there before. *)
Lemma validate_fields_values fields d vm vm' :
  validate_fields fields (PDict d) vm = Done vm' ->
  forall field,
    (In field fields -> exists x, passes d field x /\ dict_get vm' field = Some x) /\
    (~ In field fields -> dict_get vm' field = dict_get vm field).
Proof.
  revert vm. induction fields as [|f fields IH]; intros vm.
  - intros [= <-] field. split; [intros [] | reflexivity].
  - rewrite validate_fields_cons.
    destruct (check_field (PDict d) vm f) as [vm1|r1|e1] eqn:Hf; cbn [bind];
      try discriminate.
    intros H field. destruct (IH _ H field) as [Hin Hout].
    destruct (check_field_done_inv _ _ _ _ Hf) as (item & x & _ & Hitem & Hx & Hlt & ->).
    assert (Hpass : passes d f x).
    { exists item. split; [|now split].
      cbn in Hitem. destruct (dict_get d f); congruence. }
    split.
    + intros [<-|Hrest].
      * destruct (in_dec string_dec f fields) as [Hf'|Hf']; [now apply Hin|].
        exists x. split; [exact Hpass|]. rewrite (Hout Hf'). apply dict_get_set_same.
      * now apply Hin.
    + intros Hnot. rewrite Hout by (intros Hc; apply Hnot; now right).
      apply dict_get_set_other. intros ->. apply Hnot. now left.
Qed.

(** The checks read the submitted mapping at the required names only. *)
Lemma check_field_agree d1 d2 vm field :
  dict_get d1 field = dict_get d2 field ->
  check_field (PDict d1) vm field = check_field (PDict d2) vm field.
Proof.
  intros H. unfold check_field, py_contains, py_getitem, dict_has. now rewrite H.
Qed.

Lemma validate_fields_agree fields d1 d2 vm :
  (forall field, In field fields -> dict_get d1 field = dict_get d2 field) ->
  validate_fields fields (PDict d1) vm = validate_fields fields (PDict d2) vm.
Proof.
  revert vm. induction fields as [|f fields IH]; intros vm Hagree; [reflexivity|].
  rewrite !validate_fields_cons, (check_field_agree d1 d2 vm f) by (apply Hagree; now left).
  destruct (check_field (PDict d2) vm f); cbn [bind]; auto.
  apply IH. intros g Hg. apply Hagree. now right.
Qed.

Section InferenceProperties.

Variable feature_names : list string.
Variable predict : feature_vector -> result (Z * spec_float).

Lemma handle_validated data_input vm cls p :
  validate_fields feature_names data_input [] = Done vm ->
  predict vm = Ok (cls, p) ->
  handle_inference feature_names predict (Ok data_input)
  = prediction_success (cls =? 1)
      (py_round
         (SFmul prec emax (if cls =? 1 then p else SFsub prec emax f_one p) f_hundred) 2).
Proof.
  intros Hval Hpred. unfold handle_inference, inference_body. cbn.
  rewrite Hval. cbn. rewrite Hpred. reflexivity.
Qed.

(** C1.  For a fully valid submission the validation loop completes and
    hands [predict] a vector that carries the float of every required value;
    when [predict] answers class 1 with probability [p] the response is the
    success result with label Benign, [is_benign] true and confidence
    [round(p * 100, 2)]; when it answers class 0 the label is Malignant,
    [is_benign] false and the confidence [round((1 - p) * 100, 2)]. *)
Theorem valid_submission_result data_input :
  fully_valid feature_names data_input ->
  exists d vm,
    data_input = PDict d /\
    validate_fields feature_names data_input [] = Done vm /\
    carries feature_names d vm /\
    forall p,
      (predict vm = Ok (1, p) ->
       let r := handle_inference feature_names predict (Ok data_input) in
       status_code r = 200 /\
       body_field r "status" = Some (PStr "success") /\
       output_field r "label" = Some (PStr "Benign") /\
       output_field r "is_benign" = Some (PBool true) /\
       output_field r "confidence"
       = Some (PFloat (py_round (SFmul prec emax p f_hundred) 2))) /\
      (predict vm = Ok (0, p) ->
       let r := handle_inference feature_names predict (Ok data_input) in
       status_code r = 200 /\
       body_field r "status" = Some (PStr "success") /\
       output_field r "label" = Some (PStr "Malignant") /\
       output_field r "is_benign" = Some (PBool false) /\
       output_field r "confidence"
       = Some (PFloat (py_round
                         (SFmul prec emax (SFsub prec emax f_one p) f_hundred) 2))).
Proof.
  intros (d & -> & Hall).
  destruct (validate_fields_pass feature_names d [] Hall) as [vm Hvm].
  exists d, vm. split; [reflexivity|]. split; [exact Hvm|]. split.
  - intros field Hfield. now apply (validate_fields_values _ _ _ _ Hvm field).
  - intros p. split; intros Hpred; cbv zeta;
      rewrite (handle_validated _ _ _ _ Hvm Hpred); cbn; repeat split; reflexivity.
Qed.

Lemma handle_validation_return data_input r :
  validate_fields feature_names data_input [] = Return r ->
  handle_inference feature_names predict (Ok data_input) = r.
Proof.
  intros H. unfold handle_inference, inference_body. cbn. now rewrite H.
Qed.

Lemma handle_first_failure d pre field post r :
  feature_names = (pre ++ field :: post)%list ->
  (forall g, In g pre -> exists x, passes d g x) ->
  (forall vm, check_field (PDict d) vm field = Return r) ->
  handle_inference feature_names predict (Ok (PDict d)) = r.
Proof.
  intros Hnames Hpre Hfield. apply handle_validation_return.
  rewrite Hnames, validate_fields_app.
  destruct (validate_fields_pass pre d [] Hpre) as [vm Hvm].
  rewrite Hvm. cbn [bind]. rewrite validate_fields_cons, Hfield. reflexivity.
Qed.

(** C2, as amended.  When a required feature is absent from the submitted
    mapping and every required feature before it in the model's list is
    present with a value that converts to a float not below zero, the
    response is HTTP 400 with the failure body whose message is
    [Missing: ] followed by that field, and it carries no prediction. *)
Theorem first_missing_field_reported d pre field post :
  feature_names = (pre ++ field :: post)%list ->
  (forall g, In g pre -> exists x, passes d g x) ->
  dict_has d field = false ->
  let r := handle_inference feature_names predict (Ok (PDict d)) in
  r = validation_failure ("Missing: " ++ field) /\
  status_code r = 400 /\
  body_field r "success" = Some (PBool false) /\
  message_names r field = true /\
  body_field r "output" = None.
Proof.
  intros Hnames Hpre Hmiss. cbv zeta.
  rewrite (handle_first_failure d pre field post _ Hnames Hpre
             (fun vm => check_field_missing d vm field Hmiss)).
  split; [reflexivity|]. split; [reflexivity|]. split; [reflexivity|].
  split; [apply message_names_suffix | reflexivity].
Qed.

(** C3, as amended.  When a required feature is present with a value whose
    conversion raises [ValueError] or [TypeError], or converts to a float
    below zero, and every required feature before it in the model's list is
    present with a value that converts to a float not below zero, the
    response is HTTP 400 with the failure body whose message is
    [Invalid numeric data: ] followed by that field. *)
Theorem first_invalid_field_reported d pre field post v :
  feature_names = (pre ++ field :: post)%list ->
  (forall g, In g pre -> exists x, passes d g x) ->
  dict_get d field = Some v ->
  (exists e, py_float v = Err e /\ value_or_type_error (exn_cls e) = true) \/
  (exists x, py_float v = Ok x /\ float_lt x f_zero = true) ->
  let r := handle_inference feature_names predict (Ok (PDict d)) in
  r = validation_failure ("Invalid numeric data: " ++ field) /\
  status_code r = 400 /\
  body_field r "success" = Some (PBool false) /\
  message_names r field = true /\
  body_field r "output" = None.
Proof.
  intros Hnames Hpre Hget Hbad. cbv zeta.
  assert (Hfield : forall vm, check_field (PDict d) vm field
                   = Return (validation_failure ("Invalid numeric data: " ++ field))).
  { intros vm. destruct Hbad as [(e & He & Hcls)|(x & Hx & Hlt)].
    - eapply check_field_rejected; eassumption.
    - eapply check_field_negative; eassumption. }
  rewrite (handle_first_failure d pre field post _ Hnames Hpre Hfield).
  split; [reflexivity|]. split; [reflexivity|]. split; [reflexivity|].
  split; [apply message_names_suffix | reflexivity].
Qed.

(** C8.  An exception raised by [predict] on the validated vector leaves the
    body of the [try] as that exception, and any exception that leaves the
    body of the [try] is answered with HTTP 500 and a body of status [error]
    whose details are the exception's text, with no output. *)
Theorem unhandled_exception_gives_500 get_json e :
  (inference_body feature_names predict get_json = Raise e \/
   exists data_input vm,
     get_json = Ok data_input /\
     validate_fields feature_names data_input [] = Done vm /\
     predict vm = Err e) ->
  let r := handle_inference feature_names predict get_json in
  r = server_error e /\
  status_code r = 500 /\
  body_field r "status" = Some (PStr "error") /\
  body_field r "details" = Some (PStr (exn_text e)) /\
  body_field r "output" = None.
Proof.
  intros H. cbv zeta.
  assert (Hraise : inference_body feature_names predict get_json = Raise e).
  { destruct H as [H|(data_input & vm & -> & Hvm & Hpred)]; [exact H|].
    unfold inference_body. cbn. rewrite Hvm. cbn. now rewrite Hpred. }
  unfold handle_inference. rewrite Hraise. repeat split.
Qed.

(** C9, as amended.  With a first required feature, a body that is JSON
    null, a boolean or a number makes the membership test raise [TypeError],
    and the response is the generic HTTP 500 with that error's text; a body
    that is a JSON string or array passes the membership test without an
    exception, and the response is an HTTP 400 validation failure for that
    first feature. *)
Theorem non_object_body_response first rest v :
  feature_names = first :: rest ->
  (forall d, v <> PDict d) ->
  let r := handle_inference feature_names predict (Ok v) in
  (is_scalar v = true ->
   exists e, py_contains v first = Err e /\ exn_cls e = TypeError /\
             r = server_error e /\ status_code r = 500) /\
  (is_scalar v = false ->
   exists present, py_contains v first = Ok present /\
     r = validation_failure
           ((if present then "Invalid numeric data: " else "Missing: ") ++ first) /\
     status_code r = 400).
Proof.
  intros Hnames Hnot. cbv zeta. unfold handle_inference, inference_body.
  rewrite Hnames. cbn [call bind]. rewrite validate_fields_cons. unfold check_field.
  destruct v as [| b | n | x | s | l | d]; cbn [is_scalar]; split; try discriminate;
    intros _; try (eexists; repeat split; reflexivity).
  - exists (contains_str first s). split; [reflexivity|].
    cbn [py_contains call bind]. destruct (contains_str first s); cbn; now split.
  - cbn [py_contains call bind].
    match goal with |- context [existsb ?f l] => destruct (existsb f l) end;
      eexists; cbn; repeat split; reflexivity.
  - now elim (Hnot d).
Qed.

(** C10.  Validation follows the order of the model's feature list and
    stops at the first field that fails: when the loop stops, with a response
    or an exception, it does so at a field all of whose predecessors passed,
    whatever follows it, and a validation response is the handler's answer.
    The vector handed to [predict] has exactly the required names as its keys,
    each once; and two submissions that agree at the required names get the
    same response, so other keys are ignored. *)
Theorem validation_order_and_vector data_input :
  (forall o, validate_fields feature_names data_input [] = o ->
     (forall vm, o <> Done vm) ->
     exists pre field post vm,
       feature_names = (pre ++ field :: post)%list /\
       validate_fields pre data_input [] = Done vm /\
       check_field data_input vm field = o) /\
  (forall r, validate_fields feature_names data_input [] = Return r ->
     handle_inference feature_names predict (Ok data_input) = r) /\
  (forall vm, validate_fields feature_names data_input [] = Done vm ->
     (forall key, In key (dict_keys vm) <-> In key feature_names) /\
     NoDup (dict_keys vm) /\
     handle_inference feature_names predict (Ok data_input)
     = match predict vm with
       | Ok (cls, p) =>
           prediction_success (cls =? 1)
             (py_round
                (SFmul prec emax (if cls =? 1 then p else SFsub prec emax f_one p)
                   f_hundred) 2)
       | Err e => server_error e
       end) /\
  (forall d d', data_input = PDict d ->
     (forall field, In field feature_names -> dict_get d field = dict_get d' field) ->
     handle_inference feature_names predict (Ok (PDict d'))
     = handle_inference feature_names predict (Ok data_input)).
Proof.
  split; [|split; [|split]].
  - intros o Ho Hstop. now apply validate_fields_stops.
  - intros r Hr. now apply handle_validation_return.
  - intros vm Hvm. destruct (validate_fields_keys _ _ _ _ Hvm) as [Hkeys Hnd].
    split; [|split].
    + intros key. rewrite Hkeys. cbn. intuition.
    + apply Hnd. constructor.
    + unfold handle_inference, inference_body. cbn [call bind]. rewrite Hvm. cbn [bind].
      destruct (predict vm) as [[cls p]|e]; reflexivity.
  - intros d d' -> Hagree. unfold handle_inference, inference_body. cbn [call bind].
    now rewrite (validate_fields_agree feature_names d d' []).
Qed.

(** C5.  On a successful response, for a model probability that is a
    binary64 number between 0 and 1, the confidence is between 0 and 100. *)
Theorem confidence_in_range data_input vm cls p :
  validate_fields feature_names data_input [] = Done vm ->
  predict vm = Ok (cls, p) ->
  valid_binary prec emax p = true ->
  float_le f_zero p = true ->
  float_le p f_one = true ->
  let r := handle_inference feature_names predict (Ok data_input) in
  body_field r "status" = Some (PStr "success") /\
  exists c,
    output_field r "confidence" = Some (PFloat c) /\
    float_le f_zero c = true /\ float_le c f_hundred = true.
Proof.
  intros Hvm Hpred Hvalid Hlo Hhi. cbv zeta.
  rewrite (handle_validated _ _ _ _ Hvm Hpred).
  split; [reflexivity|]. eexists. split; [reflexivity|].
  apply round_two_within, mul_hundred_within.
  assert (Hp : within f_one p) by (repeat split; assumption).
  destruct (cls =? 1); [exact Hp | now apply one_minus_within].
Qed.

End InferenceProperties.

(** ** The properties at sample inputs *)

(** The sample submission is fully valid. *)
Lemma sample_submission_valid : fully_valid two_features sample_submission.
Proof.
  exists [("radius_mean", PInt 14); ("texture_mean", PStr "20.5"); ("note", PStr "left breast")].
  split; [reflexivity|].
  intros field [<-|[<-|[]]]; eexists; eexists; (split; [reflexivity|]);
    (split; [vm_compute; reflexivity | reflexivity]).
Defined.

(** C1 at the sample submission: with class 1 and probability 0.92 the
    label is Benign and the confidence 92.0; with class 0 and the same
    probability the label is Malignant and the confidence 8.0. *)
Lemma valid_submission_result_witness :
  let rb := handle_inference two_features benign_092 (Ok sample_submission) in
  let rm := handle_inference two_features malignant_092 (Ok sample_submission) in
  (output_field rb "label" = Some (PStr "Benign") /\
   output_field rb "is_benign" = Some (PBool true) /\
   output_field rb "confidence" = Some (PFloat (float_of_Z 92))) /\
  (output_field rm "label" = Some (PStr "Malignant") /\
   output_field rm "is_benign" = Some (PBool false) /\
   output_field rm "confidence" = Some (PFloat (float_of_Z 8))).
Proof.
  cbv zeta. split.
  - destruct (valid_submission_result two_features benign_092 sample_submission
                sample_submission_valid) as (d & vm & _ & _ & _ & H).
    destruct (H probability_092) as [Hb _].
    destruct (Hb eq_refl) as (_ & _ & Hlabel & Hflag & Hconf).
    split; [exact Hlabel|]. split; [exact Hflag|].
    rewrite Hconf. vm_compute. reflexivity.
  - destruct (valid_submission_result two_features malignant_092 sample_submission
                sample_submission_valid) as (d & vm & _ & _ & _ & H).
    destruct (H probability_092) as [_ Hm].
    destruct (Hm eq_refl) as (_ & _ & Hlabel & Hflag & Hconf).
    split; [exact Hlabel|]. split; [exact Hflag|].
    rewrite Hconf. vm_compute. reflexivity.
Defined.

(** C2, as amended, at a submission that lacks [texture_mean]. *)
Lemma first_missing_field_reported_witness :
  let r := handle_inference two_features always_benign (Ok (PDict [("radius_mean", PInt 14)])) in
  r = validation_failure "Missing: texture_mean" /\
  status_code r = 400 /\
  body_field r "success" = Some (PBool false) /\
  message_names r "texture_mean" = true /\
  body_field r "output" = None.
Proof.
  apply (first_missing_field_reported two_features always_benign
           [("radius_mean", PInt 14)] ["radius_mean"] "texture_mean" []).
  - reflexivity.
  - intros g [<-|[]]. eexists; eexists. split; [reflexivity|].
    split; [vm_compute; reflexivity | reflexivity].
  - reflexivity.
Defined.

(** C3, as amended, at a submission whose [texture_mean] is [abc]. *)
Lemma first_invalid_field_reported_witness :
  let r := handle_inference two_features always_benign
             (Ok (PDict [("radius_mean", PInt 14); ("texture_mean", PStr "abc")])) in
  r = validation_failure "Invalid numeric data: texture_mean" /\
  status_code r = 400 /\
  body_field r "success" = Some (PBool false) /\
  message_names r "texture_mean" = true /\
  body_field r "output" = None.
Proof.
  apply (first_invalid_field_reported two_features always_benign
           [("radius_mean", PInt 14); ("texture_mean", PStr "abc")]
           ["radius_mean"] "texture_mean" [] (PStr "abc")).
  - reflexivity.
  - intros g [<-|[]]. eexists; eexists. split; [reflexivity|].
    split; [vm_compute; reflexivity | reflexivity].
  - reflexivity.
  - left. eexists. split; [vm_compute; reflexivity | reflexivity].
Defined.

(** C8 at a model wrapper whose [predict] raises. *)
Lemma unhandled_exception_gives_500_witness :
  let r := handle_inference two_features always_failing (Ok sample_submission) in
  r = server_error (mk_exn ValueError "Input contains NaN.") /\
  status_code r = 500 /\
  body_field r "status" = Some (PStr "error") /\
  body_field r "details" = Some (PStr "Input contains NaN.") /\
  body_field r "output" = None.
Proof.
  apply (unhandled_exception_gives_500 two_features always_failing
           (Ok sample_submission) (mk_exn ValueError "Input contains NaN.")).
  right. eexists; eexists. split; [reflexivity|].
  split; [vm_compute; reflexivity | reflexivity].
Defined.

(** C9, as amended, at the body [null], which gets the 500, and at the
    array [["radius_mean"]], which gets a 400. *)
Lemma non_object_body_response_witness :
  handle_inference two_features always_benign (Ok PNone)
  = server_error (mk_exn TypeError "argument of type 'NoneType' is not iterable") /\
  handle_inference two_features always_benign (Ok (PList [PStr "radius_mean"]))
  = validation_failure "Invalid numeric data: radius_mean".
Proof.
  split.
  - destruct (proj1 (non_object_body_response two_features always_benign
                       "radius_mean" ["texture_mean"] PNone eq_refl
                       (fun d H => eq_ind PNone
                                     (fun v => match v with PNone => True | _ => False end)
                                     I _ H))
                eq_refl) as (e & He & _ & Hr & _).
    cbn in He. injection He as <-. exact Hr.
  - destruct (proj2 (non_object_body_response two_features always_benign
                       "radius_mean" ["texture_mean"] (PList [PStr "radius_mean"]) eq_refl
                       (fun d H => eq_ind (PList [PStr "radius_mean"])
                                     (fun v => match v with PList _ => True | _ => False end)
                                     I _ H))
                eq_refl) as (present & Hp & Hr & _).
    cbn in Hp. injection Hp as <-. exact Hr.
Defined.

(** C5 at the sample submission and probability 0.92. *)
Lemma confidence_in_range_witness :
  let r := handle_inference two_features benign_092 (Ok sample_submission) in
  body_field r "status" = Some (PStr "success") /\
  exists c,
    output_field r "confidence" = Some (PFloat c) /\
    float_le f_zero c = true /\ float_le c f_hundred = true.
Proof.
  eapply (confidence_in_range two_features benign_092 sample_submission _ 1 probability_092).
  - vm_compute. reflexivity.
  - reflexivity.
  - reflexivity.
  - reflexivity.
  - reflexivity.
Defined.

(** The scenario of the specification: class 1 with probability 0.92 gives
    label Benign and confidence 92.0. *)
Example benign_092_response :
  handle_inference two_features benign_092 (Ok sample_submission)
  = prediction_success true (float_of_Z 92).
Proof. vm_compute. reflexivity. Qed.

(** C2, as the specification words it, fails: [texture_mean] is missing,
    but [radius_mean], which comes first, holds [abc], and the 400 names
    [radius_mean] only. *)
Lemma missing_field_not_named :
  handle_inference two_features always_benign (Ok (PDict [("radius_mean", PStr "abc")]))
  = validation_failure "Invalid numeric data: radius_mean" /\
  ~ every_missing_field_named two_features always_benign [("radius_mean", PStr "abc")].
Proof.
  split; [vm_compute; reflexivity|].
  intros H. destruct (H "texture_mean") as [_ Hnamed].
  - right. left. reflexivity.
  - reflexivity.
  - vm_compute in Hnamed. discriminate.
Qed.

(** C3, as the specification words it, fails: [texture_mean] holds [abc],
    but [radius_mean], which comes first, is missing, and the 400 names
    [radius_mean] only. *)
Lemma invalid_field_not_named :
  handle_inference two_features always_benign (Ok (PDict [("texture_mean", PStr "abc")]))
  = validation_failure "Missing: radius_mean" /\
  ~ every_invalid_field_named two_features always_benign [("texture_mean", PStr "abc")].
Proof.
  split; [vm_compute; reflexivity|].
  intros H. destruct (H "texture_mean" (PStr "abc")) as [_ Hnamed].
  - right. left. reflexivity.
  - reflexivity.
  - left. eexists. vm_compute. reflexivity.
  - vm_compute in Hnamed. discriminate.
Qed.

(** An integer too large for a float is not caught by the inner [except]:
    [float] raises [OverflowError], and the response is the 500. *)
Lemma huge_int_gives_500 :
  handle_inference two_features always_benign
    (Ok (PDict [("radius_mean", PInt (10 ^ 400))]))
  = server_error (mk_exn OverflowError "int too large to convert to float").
Proof. vm_compute. reflexivity. Qed.

(** C9, as worded, fails: a JSON string is no object, yet the membership
    test is a substring test that raises nothing, and the response is a
    400. *)
Lemma string_body_gives_400 :
  handle_inference two_features always_benign (Ok (PStr "hello"))
  = validation_failure "Missing: radius_mean" /\
  ~ non_object_gives_500 two_features always_benign (PStr "hello").
Proof.
  split; [vm_compute; reflexivity|].
  intros H. assert (Hs : forall d, PStr "hello" <> PDict d) by (intros d; discriminate).
  specialize (H Hs). vm_compute in H. discriminate.
Qed.

(** C4 at the failing input: the string [nan] converts to a NaN, which is
    not below zero, so the loop stores it and the vector that reaches
    [predict] breaks the invariant. *)
Theorem nan_reaches_predict :
  exists vm,
    validate_fields two_features
      (PDict [("radius_mean", PStr "nan"); ("texture_mean", PInt 20)]) [] = Done vm /\
    dict_get vm "radius_mean" = Some S754_nan /\
    float_le f_zero S754_nan = false /\
    ~ vector_invariant two_features vm.
Proof.
  eexists. split; [vm_compute; reflexivity|].
  split; [reflexivity|]. split; [reflexivity|].
  intros H. destruct (H "radius_mean") as (x & Hx & Hle); [now left|].
  cbn in Hx. injection Hx as <-. discriminate.
Qed.

(** C10 at sample inputs: the loop stops at [texture_mean], the second
    name, after [radius_mean] passed; and the key [note] changes nothing. *)
Lemma validation_order_and_vector_witness :
  (exists pre field post vm,
      two_features = (pre ++ field :: post)%list /\
      validate_fields pre (PDict [("radius_mean", PInt 14)]) [] = Done vm /\
      check_field (PDict [("radius_mean", PInt 14)]) vm field
      = Return (validation_failure "Missing: texture_mean")) /\
  handle_inference two_features always_benign
    (Ok (PDict [("radius_mean", PInt 14); ("texture_mean", PStr "20.5")]))
  = handle_inference two_features always_benign (Ok sample_submission).
Proof.
  split.
  - apply (proj1 (validation_order_and_vector two_features always_benign
                    (PDict [("radius_mean", PInt 14)]))).
    + vm_compute. reflexivity.
    + intros vm. discriminate.
  - apply (proj2 (proj2 (proj2 (validation_order_and_vector two_features always_benign
                                  sample_submission))) _ _ eq_refl).
    intros field [<-|[<-|[]]]; reflexivity.
Defined.

(** * Properties of [provide_example_cases] *)

Lemma select_rows_map {A : Type} (p : A -> bool) (l : list A) :
  select_rows (map p l) l = filter p l.
Proof.
  induction l as [|x l IH]; cbn; [reflexivity|].
  rewrite IH. reflexivity.
Qed.

Lemma dict_get_combine_in {V : Type} (ks : list string) (vs : list V) k v :
  dict_get (combine ks vs) k = Some v -> In k ks.
Proof.
  revert vs. induction ks as [|k' ks IH]; intros [|v' vs]; cbn; try discriminate.
  destruct (String.eqb_spec k' k) as [->|Hne]; [now left|].
  intros H. right. eapply IH, H.
Qed.

Lemma case_of_no_diagnosis dataset row : has_key (case_of dataset row) "diagnosis" = false.
Proof.
  unfold case_of, has_key, dict_has.
  match goal with |- context [dict_get ?d ?k] => destruct (dict_get d k) eqn:Hget end;
    [|reflexivity].
  apply dict_get_combine_in, filter_In in Hget. now destruct Hget as [_ [=]].
Qed.

Lemma sample_case_unfold dataset label i w :
  index_of "diagnosis" (columns dataset) = Some i ->
  sample_case dataset label w
  = match labelled_rows dataset i label with
    | [] => (Err no_rows_error, w)
    | first :: others =>
        (Ok (case_of dataset
               (nth (Nat.modulo (random_numbers w (random_drawn w))
                       (List.length (first :: others)))
                    (first :: others) first)),
         mk_world (csv_file w) (csv_reads w) (random_numbers w) (S (random_drawn w)))
    end.
Proof.
  intros Hi. unfold sample_case, io_bind, io_lift, df_column. rewrite Hi.
  unfold df_sample_one, df_where. cbn [rows columns].
  rewrite map_map, select_rows_map. fold (labelled_rows dataset i label).
  destruct (labelled_rows dataset i label) as [|first others]; [reflexivity|].
  unfold io_bind, next_random, io_ret, df_drop_column. cbn [rows columns fst snd].
  rewrite Hi. reflexivity.
Qed.

Lemma sample_case_no_column dataset label w :
  index_of "diagnosis" (columns dataset) = None ->
  sample_case dataset label w = (Err (mk_exn KeyError "'diagnosis'"), w).
Proof.
  intros Hi. unfold sample_case, io_bind, io_lift, df_column. now rewrite Hi.
Qed.

Lemma sample_case_reads dataset label w :
  csv_reads (snd (sample_case dataset label w)) = csv_reads w.
Proof.
  destruct (index_of "diagnosis" (columns dataset)) as [i|] eqn:Hi.
  - rewrite (sample_case_unfold _ _ _ _ Hi).
    now destruct (labelled_rows dataset i label).
  - now rewrite (sample_case_no_column _ _ _ Hi).
Qed.

Lemma sample_case_ok dataset label w v w' :
  sample_case dataset label w = (Ok v, w') ->
  exists row, row_with_label dataset label row /\ v = case_of dataset row.
Proof.
  destruct (index_of "diagnosis" (columns dataset)) as [i|] eqn:Hi.
  - rewrite (sample_case_unfold _ _ _ _ Hi).
    destruct (labelled_rows dataset i label) as [|first others] eqn:Hrows; [discriminate|].
    set (k := Nat.modulo (random_numbers w (random_drawn w)) (List.length (first :: others))).
    intros H. assert (Hv : v = case_of dataset (nth k (first :: others) first)) by congruence.
    exists (nth k (first :: others) first). split; [|exact Hv].
    assert (Hin : In (nth k (first :: others) first) (labelled_rows dataset i label)).
    { rewrite Hrows. apply nth_In. apply Nat.mod_upper_bound. discriminate. }
    apply filter_In in Hin. destruct Hin as [Hin Hlabel].
    split; [exact Hin|]. now exists i.
  - rewrite (sample_case_no_column _ _ _ Hi). discriminate.
Qed.

Lemma samples_body_unfold w :
  samples_body w
  = let w1 := snd (read_csv w) in
    match csv_file w with
    | Err e => (Err e, w1)
    | Ok dataset =>
        match sample_case dataset 1 w1 with
        | (Err e, w2) => (Err e, w2)
        | (Ok sample_benign, w2) =>
            match sample_case dataset 0 w2 with
            | (Err e, w3) => (Err e, w3)
            | (Ok sample_malignant, w3) =>
                (Ok (samples_success sample_benign sample_malignant), w3)
            end
        end
    end.
Proof.
  unfold samples_body, io_bind, read_csv, io_ret. cbn [snd].
  destruct (csv_file w) as [dataset|e]; [|reflexivity].
  destruct (sample_case dataset 1 _) as [[b|e] w2]; [|reflexivity].
  destruct (sample_case dataset 0 w2) as [[m|e] w3]; reflexivity.
Qed.

(** The dataset file is read exactly once in every call. *)
Lemma samples_body_reads w : csv_reads (snd (samples_body w)) = S (csv_reads w).
Proof.
  rewrite samples_body_unfold. cbv zeta.
  destruct (csv_file w) as [dataset|e]; [|reflexivity].
  pose proof (sample_case_reads dataset 1 (snd (read_csv w))) as H1.
  destruct (sample_case dataset 1 _) as [[b|e] w2]; cbn [snd] in *; [|exact H1].
  pose proof (sample_case_reads dataset 0 w2) as H0.
  destruct (sample_case dataset 0 w2) as [[m|e] w3]; cbn [snd] in *;
    rewrite H0; exact H1.
Qed.

(** C6.  A successful call of [provide_example_cases] read a dataset and
    returns a payload of exactly two entries: [benign_case], made from a row
    of the dataset whose diagnosis is 1, and [malignant_case], made from a
    row whose diagnosis is 0; neither mapping has the key [diagnosis]. *)
Theorem sample_cases_payload w r w' :
  provide_example_cases w = (r, w') ->
  body_field r "success" = Some (PBool true) ->
  exists dataset benign_row malignant_row,
    csv_file w = Ok dataset /\
    row_with_label dataset 1 benign_row /\
    row_with_label dataset 0 malignant_row /\
    body_field r "payload"
    = Some (PDict [("benign_case", case_of dataset benign_row);
                   ("malignant_case", case_of dataset malignant_row)]) /\
    has_key (case_of dataset benign_row) "diagnosis" = false /\
    has_key (case_of dataset malignant_row) "diagnosis" = false.
Proof.
  unfold provide_example_cases. rewrite samples_body_unfold. cbv zeta.
  destruct (csv_file w) as [dataset|e]; [|intros [= <- _]; discriminate].
  destruct (sample_case dataset 1 _) as [[b|e] w2] eqn:Hb; [|intros [= <- _]; discriminate].
  destruct (sample_case dataset 0 w2) as [[m|e] w3] eqn:Hm; [|intros [= <- _]; discriminate].
  intros [= <- _] _.
  destruct (sample_case_ok _ _ _ _ _ Hb) as (rb & Hrb & ->).
  destruct (sample_case_ok _ _ _ _ _ Hm) as (rm & Hrm & ->).
  exists dataset, rb, rm.
  split; [reflexivity|]. split; [exact Hrb|]. split; [exact Hrm|].
  split; [reflexivity|]. split; apply case_of_no_diagnosis.
Qed.

(** C7.  When reading the dataset raises, or a class has no row to sample,
    or anything else raises inside the [try], [provide_example_cases] does
    not raise: it returns the body with [success] false and the error's
    text, and the dataset file has been read once, with no second
    attempt. *)
Theorem sample_failure_reported w e :
  fst (samples_body w) = Err e \/
  csv_file w = Err e \/
  (exists dataset i,
      csv_file w = Ok dataset /\
      index_of "diagnosis" (columns dataset) = Some i /\
      (labelled_rows dataset i 1 = [] \/ labelled_rows dataset i 0 = []) /\
      e = no_rows_error) ->
  let r := fst (provide_example_cases w) in
  r = samples_failure e /\
  body_field r "success" = Some (PBool false) /\
  body_field r "error" = Some (PStr (exn_text e)) /\
  body_field r "payload" = None /\
  csv_reads (snd (provide_example_cases w)) = S (csv_reads w).
Proof.
  intros H. cbv zeta.
  assert (Hraise : fst (samples_body w) = Err e).
  { destruct H as [H|[H|(dataset & i & Hcsv & Hi & Hempty & ->)]]; [exact H| |];
      rewrite samples_body_unfold; cbv zeta.
    - now rewrite H.
    - rewrite Hcsv, (sample_case_unfold _ _ _ _ Hi).
      destruct (labelled_rows dataset i 1) as [|b bs]; [reflexivity|].
      rewrite (sample_case_unfold _ _ _ _ Hi).
      destruct Hempty as [Hempty|Hempty]; [discriminate|]. now rewrite Hempty. }
  pose proof (samples_body_reads w) as Hreads.
  unfold provide_example_cases.
  destruct (samples_body w) as [[r|e'] w1]; cbn [fst snd] in *; [discriminate|].
  injection Hraise as ->. repeat split. exact Hreads.
Qed.

(** C6 at a dataset of three rows. *)
Lemma sample_cases_payload_witness :
  exists dataset benign_row malignant_row,
    csv_file sample_world = Ok dataset /\
    row_with_label dataset 1 benign_row /\
    row_with_label dataset 0 malignant_row /\
    body_field (fst (provide_example_cases sample_world)) "payload"
    = Some (PDict [("benign_case", case_of dataset benign_row);
                   ("malignant_case", case_of dataset malignant_row)]) /\
    has_key (case_of dataset benign_row) "diagnosis" = false /\
    has_key (case_of dataset malignant_row) "diagnosis" = false.
Proof.
  apply (sample_cases_payload sample_world (fst (provide_example_cases sample_world))
           (snd (provide_example_cases sample_world))).
  - vm_compute. reflexivity.
  - vm_compute. reflexivity.
Defined.

(** C7 when the dataset file is missing. *)
Lemma sample_failure_reported_witness :
  let r := fst (provide_example_cases missing_file_world) in
  r = samples_failure missing_file_error /\
  body_field r "success" = Some (PBool false) /\
  body_field r "error" = Some (PStr (exn_text missing_file_error)) /\
  body_field r "payload" = None /\
  csv_reads (snd (provide_example_cases missing_file_world))
  = S (csv_reads missing_file_world).
Proof.
  apply (sample_failure_reported missing_file_world missing_file_error).
  right. left. reflexivity.
Defined.

(** * Properties of [initialize_system] *)

Lemma initialize_system_unfold s :
  initialize_system s
  = let after n t out :=
      mk_startup (load_outcomes s) (train_outcomes s) (n + loads s) (t + trainings s)
        (printed s ++ out)%list in
    match load_outcomes s (loads s) with
    | Ok true => (Ok tt, after 1%nat 0%nat [])
    | Ok false =>
        match train_outcomes s (trainings s) with
        | Ok _ =>
            match load_outcomes s (S (loads s)) with
            | Ok _ => (Ok tt, after 2%nat 1%nat [training_notice])
            | Err e => (Err e, after 2%nat 1%nat [training_notice])
            end
        | Err e => (Err e, after 1%nat 1%nat [training_notice])
        end
    | Err e => (Err e, after 1%nat 0%nat [])
    end.
Proof.
  unfold initialize_system, startup_bind, load_model, print, train_and_save_model,
    startup_ret. cbn.
  destruct (load_outcomes s (loads s)) as [[|]|e]; cbn; rewrite ?app_nil_r; reflexivity.
Qed.

(** X12.  Training runs, once and after the notice is printed, exactly when the
    first [load_model] returns false; otherwise [load_model] is the only call
    made, once. *)
Theorem training_only_when_weights_missing s :
  let s' := snd (initialize_system s) in
  (load_outcomes s (loads s) = Ok false ->
   trainings s' = S (trainings s) /\
   printed s' = (printed s ++ [training_notice])%list /\
   (S (loads s) <= loads s' <= S (S (loads s)))%nat) /\
  (load_outcomes s (loads s) <> Ok false ->
   trainings s' = trainings s /\ printed s' = printed s /\ loads s' = S (loads s)).
Proof.
  cbv zeta. rewrite initialize_system_unfold. cbv zeta.
  destruct (load_outcomes s (loads s)) as [[|]|e]; split; intros H;
    try discriminate; try congruence.
  - cbn. rewrite app_nil_r. auto.
  - destruct (train_outcomes s (trainings s)) as [[]|e];
      [destruct (load_outcomes s (S (loads s))) as [b|e]|]; cbn; repeat split; lia.
  - cbn. rewrite app_nil_r. auto.
Qed.

(** X13.  [initialize_system] finishes without an exception exactly when the first
    [load_model] returns true, or returns false and then training and the
    second [load_model] do not raise; what the second [load_model] returns is
    not looked at. *)
Theorem startup_outcome s :
  fst (initialize_system s) = Ok tt <->
  load_outcomes s (loads s) = Ok true \/
  (load_outcomes s (loads s) = Ok false /\
   train_outcomes s (trainings s) = Ok tt /\
   exists reloaded, load_outcomes s (S (loads s)) = Ok reloaded).
Proof.
  rewrite initialize_system_unfold. cbv zeta.
  destruct (load_outcomes s (loads s)) as [[|]|e].
  - cbn. split; auto.
  - destruct (train_outcomes s (trainings s)) as [[]|e].
    + destruct (load_outcomes s (S (loads s))) as [b|e]; cbn.
      * split; [intros _; right; repeat split; now exists b | reflexivity].
      * split; [discriminate|].
        intros [H|(_ & _ & b & H)]; discriminate.
    + cbn. split; [discriminate|]. intros [H|(_ & H & _)]; discriminate.
  - cbn. split; [discriminate|]. intros [H|(H & _)]; discriminate.
Qed.

(** Start-up with the weights missing and a reload that still finds nothing:
    training ran once, the notice was printed, [load_model] was called
    twice. *)
Lemma training_only_when_weights_missing_witness :
  trainings (snd (initialize_system never_loads)) = 1%nat /\
  printed (snd (initialize_system never_loads)) = [training_notice] /\
  (1 <= loads (snd (initialize_system never_loads)) <= 2)%nat.
Proof.
  exact (proj1 (training_only_when_weights_missing never_loads) eq_refl).
Defined.

(** Start-up finishes normally even when the reload after training returns
    false. *)
Lemma startup_outcome_witness : fst (initialize_system never_loads) = Ok tt.
Proof.
  apply (proj2 (startup_outcome never_loads)).
  right. split; [reflexivity|]. split; [reflexivity|]. exists false. reflexivity.
Defined.

(** * Further properties of [handle_inference] *)

Lemma check_field_return_shapes data_input vm field r :
  check_field data_input vm field = Return r ->
  r = validation_failure ("Missing: " ++ field) \/
  r = validation_failure ("Invalid numeric data: " ++ field).
Proof.
  unfold check_field.
  destruct (py_contains data_input field) as [[|]|e]; cbn; try discriminate.
  - destruct (py_getitem data_input field) as [item|e]; cbn.
    + destruct (py_float item) as [x|e]; cbn.
      * destruct (float_lt x f_zero); cbn; [|discriminate]. intros [= <-]. now right.
      * destruct (value_or_type_error (exn_cls e)); [|discriminate]. intros [= <-]. now right.
    + destruct (value_or_type_error (exn_cls e)); [|discriminate]. intros [= <-]. now right.
  - intros [= <-]. now left.
Qed.

Lemma validate_fields_done_dict fields data_input vm vm' :
  fields <> [] ->
  validate_fields fields data_input vm = Done vm' ->
  exists d, data_input = PDict d.
Proof.
  destruct fields as [|f fields]; [congruence|]. intros _.
  rewrite validate_fields_cons.
  destruct (check_field data_input vm f) as [vm1|r1|e1] eqn:Hf; cbn [bind];
    try discriminate.
  intros _. destruct (check_field_done_inv _ _ _ _ Hf) as (item & x & _ & Hitem & _).
  destruct data_input; try discriminate. eauto.
Qed.

Section InferenceFurther.

Variable feature_names : list string.
Variable predict : feature_vector -> result (Z * spec_float).

(** X1.  The validation loop completes, so that [predict] is called, exactly for
    the fully valid submissions: a JSON object that holds every required name
    with a value that [float] accepts and that is not below zero. *)
Theorem predict_reached_iff_valid data_input :
  feature_names <> [] ->
  (exists vm, validate_fields feature_names data_input [] = Done vm) <->
  fully_valid feature_names data_input.
Proof.
  intros Hnames. split.
  - intros [vm Hvm].
    destruct (validate_fields_done_dict _ _ _ _ Hnames Hvm) as [d ->].
    exists d. split; [reflexivity|]. intros field Hfield.
    destruct (proj1 (validate_fields_values _ _ _ _ Hvm field) Hfield) as (x & Hx & _).
    now exists x.
  - intros (d & -> & Hall). now apply validate_fields_pass.
Qed.

(** X2.  Every response of [handle_inference] has one of three shapes: the 200
    success body, whose label and [is_benign] flag agree and whose confidence
    is a float; a 400 whose message is [Missing: ] or [Invalid numeric data: ]
    followed by one of the required feature names; or the 500 error body. *)
Theorem response_shapes get_json :
  let r := handle_inference feature_names predict get_json in
  (status_code r = 200 /\
   body_field r "status" = Some (PStr "success") /\
   (output_field r "label" = Some (PStr "Benign") /\
    output_field r "is_benign" = Some (PBool true) \/
    output_field r "label" = Some (PStr "Malignant") /\
    output_field r "is_benign" = Some (PBool false)) /\
   exists c, output_field r "confidence" = Some (PFloat c)) \/
  (exists field, In field feature_names /\
     (r = validation_failure ("Missing: " ++ field) \/
      r = validation_failure ("Invalid numeric data: " ++ field))) \/
  (exists e, r = server_error e).
Proof.
  cbv zeta. unfold handle_inference, inference_body.
  destruct get_json as [data_input|e]; cbn [call bind]; [|right; right; now exists e].
  destruct (validate_fields feature_names data_input []) as [vm|r|e] eqn:Hval; cbn [bind].
  - destruct (predict vm) as [[cls p]|e]; cbn [call bind]; [|right; right; now exists e].
    left. destruct (cls =? 1); cbn; repeat split; eauto.
  - right. left.
    destruct (validate_fields_stops _ _ _ _ Hval ltac:(discriminate))
      as (pre & field & post & vm & Hnames & _ & Hfield).
    exists field. split; [rewrite Hnames; apply in_elt|].
    now apply check_field_return_shapes in Hfield.
  - right. right. now exists e.
Qed.

End InferenceFurther.

(** X3.  When validation does not complete, the response does not depend on the
    model wrapper: [predict] is not consulted. *)
Theorem failed_validation_ignores_model feature_names predict1 predict2 data_input :
  (forall vm, validate_fields feature_names data_input [] <> Done vm) ->
  handle_inference feature_names predict1 (Ok data_input)
  = handle_inference feature_names predict2 (Ok data_input).
Proof.
  intros Hstop. unfold handle_inference, inference_body. cbn [call bind].
  destruct (validate_fields feature_names data_input []) as [vm|r|e];
    [now elim (Hstop vm) | reflexivity | reflexivity].
Qed.

(** A submission without [texture_mean] is answered alike whether the model
    would answer or fail. *)
Lemma failed_validation_ignores_model_witness :
  handle_inference two_features always_benign (Ok (PDict [("radius_mean", PInt 14)]))
  = handle_inference two_features always_failing (Ok (PDict [("radius_mean", PInt 14)])).
Proof.
  apply (failed_validation_ignores_model two_features always_benign always_failing
           (PDict [("radius_mean", PInt 14)])).
  intros vm. vm_compute. discriminate.
Defined.

(** The sample submission is fully valid, so its validation completes. *)
Lemma predict_reached_iff_valid_witness :
  exists vm, validate_fields two_features sample_submission [] = Done vm.
Proof.
  apply (proj2 (predict_reached_iff_valid two_features sample_submission
                  ltac:(discriminate))).
  exact sample_submission_valid.
Defined.

(** Rounding an exact value of more than 1024 bits leaves the finite range. *)
Lemma round_aux_overflow sx mx :
  1025 <= Zpos (digits2_pos mx) ->
  binary_round_aux prec emax sx (Zpos mx) 0 loc_Exact = S754_infinity sx.
Proof.
  intros Hd. rewrite binary_round_aux_eq. cbv zeta.
  pose proof (digits_bounds mx) as [Dlo Dhi].
  set (d := Zpos (digits2_pos mx)) in *.
  rewrite Z.add_0_r, Z.sub_0_r, fexp_eq.
  replace (Z.max (d - 53) (-1074)) with (d - 53) by lia.
  set (n := d - 53).
  assert (Hn0 : 0 <= n) by (unfold n; lia).
  destruct (shr_spec (Zpos mx) 0 n (Pos2Z.is_nonneg mx) Hn0) as [He' [Hm' _]].
  set (r1 := shr (Build_shr_record (Zpos mx) false false) 0 n) in *.
  replace (snd r1) with n by lia.
  set (mrs' := fst r1) in *. clearbody mrs'. clear r1 He'.
  assert (Hpn : 0 < 2 ^ n) by (apply Z.pow_pos_nonneg; lia).
  assert (Hrange : 2 ^ 52 <= shr_m mrs' < 2 ^ 53).
  { rewrite Hm'. replace d with (53 + n) in Dhi by (unfold n; lia).
    replace (d - 1) with (52 + n) in Dlo by (unfold n; lia).
    rewrite pow2_split in Dlo, Dhi by lia.
    split; [apply Z.div_le_lower_bound; lia | apply Z.div_lt_upper_bound; lia]. }
  pose proof (round_cases mrs') as Hround. cbv zeta in Hround.
  set (m1 := round_nearest_even (shr_m mrs') (loc_of_shr_record mrs')) in *.
  assert (Hm1 : 2 ^ 52 <= m1 <= 2 ^ 53) by (destruct Hround as [->|[-> _]]; lia).
  clearbody m1. clear Hround.
  destruct m1 as [|q|q]; try lia.
  pose proof (normalize_spec q n ltac:(lia) ltac:(lia) ltac:(lia)) as Hnz.
  cbv zeta in Hnz.
  destruct (shr_fexp prec emax (Zpos q) n loc_Exact) as [mrs'' e''].
  cbn [fst snd] in *.
  destruct Hnz as [(_ & Hm'' & -> & _)|(_ & Hm'' & ->)]; rewrite Hm''.
  - replace (n <=? emax - prec) with false; [reflexivity|].
    symmetry. apply Z.leb_gt. unfold emax, prec, n. lia.
  - change (2 ^ 52) with (Zpos 4503599627370496). cbv beta iota.
    replace (n + 1 <=? emax - prec) with false; [reflexivity|].
    symmetry. apply Z.leb_gt. unfold emax, prec, n. lia.
Qed.

(** [float(n)] raises [OverflowError] for every integer [n] with
    [2 ^ 1024 <= |n|]. *)
Lemma py_float_overflow n :
  2 ^ 1024 <= Z.abs n ->
  py_float (PInt n) = Err (mk_exn OverflowError "int too large to convert to float").
Proof.
  intros Hn.
  assert (Hinf : exists s, float_of_Z n = S754_infinity s).
  { assert (Hbig : forall m, 2 ^ 1024 <= Zpos m -> forall sx,
               binary_round prec emax sx m 0 = S754_infinity sx).
    { intros m Hm sx. unfold binary_round.
      pose proof (digits_bounds m) as [_ Dhi].
      assert (Hlt : 2 ^ 1024 < 2 ^ Zpos (digits2_pos m)) by lia.
      apply Z.pow_lt_mono_r_iff in Hlt; [|lia|lia].
      destruct (shl_align_spec m 0 (fexp prec emax (Zpos (digits2_pos m) + 0)))
        as [_ Hkeep].
      rewrite Hkeep by (rewrite fexp_eq; lia).
      apply round_aux_overflow. lia. }
    unfold float_of_Z. destruct n as [|m|m]; cbn [binary_normalize]; [cbn in Hn; lia| |].
    - exists false. now apply Hbig.
    - exists true. now apply Hbig. }
  destruct Hinf as [s Hs]. cbn [py_float]. now rewrite Hs.
Qed.

(** X4.  An integer of magnitude [2 ^ 1024] or more at the first field that the
    loop does not pass is not reported as a validation error: [float] raises
    [OverflowError], which the inner [except] does not catch, and the
    response is the 500. *)
Theorem huge_integer_is_server_error feature_names predict d pre field post n :
  feature_names = (pre ++ field :: post)%list ->
  (forall g, In g pre -> exists x, passes d g x) ->
  dict_get d field = Some (PInt n) ->
  2 ^ 1024 <= Z.abs n ->
  handle_inference feature_names predict (Ok (PDict d))
  = server_error (mk_exn OverflowError "int too large to convert to float").
Proof.
  intros Hnames Hpre Hget Hn. unfold handle_inference, inference_body. cbn [call bind].
  rewrite Hnames, validate_fields_app.
  destruct (validate_fields_pass pre d [] Hpre) as [vm Hvm].
  rewrite Hvm. cbn [bind]. rewrite validate_fields_cons.
  unfold check_field, py_contains, py_getitem, dict_has. rewrite Hget. cbn [call bind negb].
  rewrite (py_float_overflow n Hn). reflexivity.
Qed.

(** [texture_mean] holds the integer [10 ^ 400]. *)
Lemma huge_integer_is_server_error_witness :
  handle_inference two_features always_benign
    (Ok (PDict [("radius_mean", PInt 14); ("texture_mean", PInt (10 ^ 400))]))
  = server_error (mk_exn OverflowError "int too large to convert to float").
Proof.
  apply (huge_integer_is_server_error two_features always_benign
           [("radius_mean", PInt 14); ("texture_mean", PInt (10 ^ 400))]
           ["radius_mean"] "texture_mean" [] (10 ^ 400)).
  - reflexivity.
  - intros g [<-|[]]. eexists; eexists. split; [reflexivity|].
    split; [vm_compute; reflexivity | reflexivity].
  - reflexivity.
  - vm_compute. discriminate.
Defined.

Lemma dict_keys_set_new {V : Type} (d : list (string * V)) k v :
  ~ In k (dict_keys d) -> dict_keys (dict_set d k v) = (dict_keys d ++ [k])%list.
Proof.
  induction d as [|[k' v'] d IH]; cbn; intros Hnot; [reflexivity|].
  destruct (String.eqb_spec k' k) as [->|Hne]; [elim Hnot; now left|].
  cbn. f_equal. apply IH. intros Hin. apply Hnot. now right.
Qed.

Lemma validate_fields_order fields data_input vm vm' :
  validate_fields fields data_input vm = Done vm' ->
  NoDup fields ->
  (forall f, In f fields -> ~ In f (dict_keys vm)) ->
  dict_keys vm' = (dict_keys vm ++ fields)%list.
Proof.
  revert vm. induction fields as [|f fields IH]; intros vm.
  - intros [= <-] _ _. now rewrite app_nil_r.
  - rewrite validate_fields_cons.
    destruct (check_field data_input vm f) as [vm1|r1|e1] eqn:Hf; cbn [bind];
      try discriminate.
    intros H Hnd Hfresh. inversion Hnd as [|? ? Hnotin Hnd']; subst.
    destruct (check_field_done_inv _ _ _ _ Hf) as (item & x & _ & _ & _ & _ & ->).
    rewrite (IH _ H Hnd').
    + rewrite dict_keys_set_new by (apply Hfresh; now left).
      now rewrite <- app_assoc.
    + intros g Hg Hin. apply dict_keys_set in Hin. destruct Hin as [Hin| ->].
      * apply (Hfresh g); [now right | exact Hin].
      * contradiction.
Qed.

(** X5.  When the model's feature list has no repetition, the vector handed to
    [predict] lists the features in the model's order. *)
Theorem vector_in_model_order feature_names data_input vm :
  NoDup feature_names ->
  validate_fields feature_names data_input [] = Done vm ->
  dict_keys vm = feature_names.
Proof.
  intros Hnd Hvm. apply (validate_fields_order _ _ _ _ Hvm Hnd). intros f _ [].
Qed.

(** A submission that lists [texture_mean] first still gives a vector in
    the order of [two_features]. *)
Lemma vector_in_model_order_witness :
  dict_keys [("radius_mean", float_of_Z 14);
             ("texture_mean", float_of_decimal false 205 (-1))]
  = two_features.
Proof.
  apply (vector_in_model_order two_features
           (PDict [("texture_mean", PStr "20.5"); ("radius_mean", PInt 14)])).
  - repeat constructor; cbn; intuition discriminate.
  - vm_compute. reflexivity.
Defined.

Lemma dict_get_as_submission (vm : feature_vector) field :
  dict_get (map (fun item => (fst item, PFloat (snd item))) vm) field
  = option_map PFloat (dict_get vm field).
Proof.
  induction vm as [|[k x] vm IH]; cbn; [reflexivity|].
  destruct (String.eqb k field); [reflexivity | exact IH].
Qed.

Lemma dict_ext {V : Type} (l1 l2 : list (string * V)) :
  dict_keys l1 = dict_keys l2 ->
  NoDup (dict_keys l1) ->
  (forall k, In k (dict_keys l1) -> dict_get l1 k = dict_get l2 k) ->
  l1 = l2.
Proof.
  revert l2. induction l1 as [|[k1 v1] l1 IH]; intros [|[k2 v2] l2]; cbn;
    try discriminate; [reflexivity|].
  intros [= <- Hkeys] Hnd Hget. inversion Hnd as [|? ? Hnotin Hnd']; subst.
  pose proof (Hget k1 (or_introl eq_refl)) as Hhead.
  rewrite String.eqb_refl in Hhead. injection Hhead as <-.
  f_equal. apply IH; [exact Hkeys | exact Hnd' |].
  intros k Hk. specialize (Hget k (or_intror Hk)).
  destruct (String.eqb_spec k1 k) as [->|_]; [contradiction | exact Hget].
Qed.

(** X6.  Round trip: when the feature list has no repetition, the vector that
    validation produced, submitted again as a JSON object of floats,
    validates to itself. *)
Theorem validated_vector_revalidates feature_names data_input vm :
  NoDup feature_names ->
  validate_fields feature_names data_input [] = Done vm ->
  validate_fields feature_names (as_submission vm) [] = Done vm.
Proof.
  intros Hnd Hvm. unfold as_submission.
  set (d' := map (fun item => (fst item, PFloat (snd item))) vm).
  assert (Hvalues : forall f, In f feature_names ->
            exists x, dict_get vm f = Some x /\ float_lt x f_zero = false).
  { intros f Hf.
    assert (Hnames : feature_names <> []) by (intros ->; destruct Hf).
    destruct (validate_fields_done_dict _ _ _ _ Hnames Hvm) as [d ->].
    destruct (proj1 (validate_fields_values _ _ _ _ Hvm f) Hf) as (x & (v & _ & _ & Hlt) & Hx).
    now exists x. }
  assert (Hpass : forall f, In f feature_names -> exists x, passes d' f x).
  { intros f Hf. destruct (Hvalues f Hf) as (x & Hx & Hlt).
    exists x, (PFloat x). unfold d'. rewrite dict_get_as_submission, Hx. now repeat split. }
  destruct (validate_fields_pass feature_names d' [] Hpass) as [vm2 Hvm2].
  rewrite Hvm2. f_equal.
  pose proof (validate_fields_order _ _ _ _ Hvm Hnd (fun f _ H => H)) as Hkeys.
  pose proof (validate_fields_order _ _ _ _ Hvm2 Hnd (fun f _ H => H)) as Hkeys2.
  cbn [dict_keys map app] in Hkeys, Hkeys2.
  apply dict_ext; [congruence | now rewrite Hkeys2 |].
  intros k Hk. rewrite Hkeys2 in Hk.
  destruct (proj1 (validate_fields_values _ _ _ _ Hvm2 k) Hk) as (x & (v & Hv & Hfloat & _) & Hx).
  unfold d' in Hv. rewrite dict_get_as_submission in Hv.
  destruct (dict_get vm k) as [y|]; [|discriminate].
  cbn in Hv. injection Hv as <-. cbn in Hfloat. congruence.
Qed.

(** The vector of the sample submission validates to itself. *)
Lemma validated_vector_revalidates_witness :
  validate_fields two_features
    (as_submission [("radius_mean", float_of_Z 14);
                    ("texture_mean", float_of_decimal false 205 (-1))]) []
  = Done [("radius_mean", float_of_Z 14);
          ("texture_mean", float_of_decimal false 205 (-1))].
Proof.
  apply (validated_vector_revalidates two_features sample_submission).
  - repeat constructor; cbn; intuition discriminate.
  - vm_compute. reflexivity.
Defined.

(** * Further properties of [provide_example_cases] *)

(** X7.  The call succeeds exactly when the dataset can be read, has a
    [diagnosis] column, and has at least one row of each class. *)
Theorem samples_succeed_iff w :
  body_field (fst (provide_example_cases w)) "success" = Some (PBool true) <->
  exists dataset i,
    csv_file w = Ok dataset /\
    index_of "diagnosis" (columns dataset) = Some i /\
    labelled_rows dataset i 1 <> [] /\
    labelled_rows dataset i 0 <> [].
Proof.
  unfold provide_example_cases. rewrite samples_body_unfold. cbv zeta.
  destruct (csv_file w) as [dataset|e].
  2:{ split; [discriminate|]. intros (ds & i & H & _). discriminate. }
  destruct (index_of "diagnosis" (columns dataset)) as [i|] eqn:Hi.
  - rewrite (sample_case_unfold _ _ _ _ Hi).
    destruct (labelled_rows dataset i 1) as [|b bs] eqn:Hb.
    + split; [discriminate|].
      intros (ds & j & [= <-] & Hj & Hne & _). rewrite Hi in Hj.
      injection Hj as <-. now elim Hne.
    + rewrite (sample_case_unfold _ _ _ _ Hi).
      destruct (labelled_rows dataset i 0) as [|m ms] eqn:Hm.
      * split; [discriminate|].
        intros (ds & j & [= <-] & Hj & _ & Hne). rewrite Hi in Hj.
        injection Hj as <-. now elim Hne.
      * split; [|reflexivity]. intros _. exists dataset, i.
        rewrite Hb, Hm. repeat split; try assumption; discriminate.
  - rewrite (sample_case_no_column _ _ _ Hi).
    split; [discriminate|]. intros (ds & j & [= <-] & Hj & _). congruence.
Qed.

Lemma sample_case_frame dataset label w :
  let w' := snd (sample_case dataset label w) in
  csv_file w' = csv_file w /\
  random_numbers w' = random_numbers w /\
  random_drawn w' =
    match fst (sample_case dataset label w) with
    | Ok _ => S (random_drawn w)
    | Err _ => random_drawn w
    end.
Proof.
  cbv zeta. destruct (index_of "diagnosis" (columns dataset)) as [i|] eqn:Hi.
  - rewrite (sample_case_unfold _ _ _ _ Hi).
    destruct (labelled_rows dataset i label); cbn; auto.
  - rewrite (sample_case_no_column _ _ _ Hi). cbn. auto.
Qed.

(** X8.  What a call does to the world: it reads the dataset file once, leaves
    the file and the generator as they are, draws two random numbers when it
    succeeds and at most one when it fails. *)
Theorem samples_effects w :
  let r := fst (provide_example_cases w) in
  let w' := snd (provide_example_cases w) in
  csv_file w' = csv_file w /\
  random_numbers w' = random_numbers w /\
  csv_reads w' = S (csv_reads w) /\
  (body_field r "success" = Some (PBool true) ->
   random_drawn w' = S (S (random_drawn w))) /\
  (body_field r "success" <> Some (PBool true) ->
   (random_drawn w <= random_drawn w' <= S (random_drawn w))%nat).
Proof.
  cbv zeta. pose proof (samples_body_reads w) as Hreads.
  unfold provide_example_cases. revert Hreads. rewrite samples_body_unfold. cbv zeta.
  destruct (csv_file w) as [dataset|e] eqn:Hcsv.
  { set (w1 := snd (read_csv w)).
    assert (Hw1 : csv_file w1 = csv_file w /\ random_numbers w1 = random_numbers w /\
                  random_drawn w1 = random_drawn w) by (cbn; auto).
    destruct Hw1 as (Hf1 & Hg1 & Hd1).
    pose proof (sample_case_frame dataset 1 w1) as Hb. cbv zeta in Hb.
    destruct (sample_case dataset 1 w1) as [[b|e] w2]; cbn [fst snd] in *;
      destruct Hb as (Hf2 & Hg2 & Hd2).
    - pose proof (sample_case_frame dataset 0 w2) as Hm. cbv zeta in Hm.
      destruct (sample_case dataset 0 w2) as [[m|e] w3]; cbn [fst snd] in *;
        destruct Hm as (Hf3 & Hg3 & Hd3); intros Hreads.
      + split; [congruence|]. split; [congruence|]. split; [exact Hreads|].
        split; [intros _; lia | intros Hs; now elim Hs].
      + split; [congruence|]. split; [congruence|]. split; [exact Hreads|].
        split; [intros Hs; cbn in Hs; discriminate | intros _; lia].
    - intros Hreads.
      split; [congruence|]. split; [congruence|]. split; [exact Hreads|].
      split; [intros Hs; cbn in Hs; discriminate | intros _; lia]. }
  intros Hreads. cbn [fst snd read_csv csv_file random_numbers random_drawn] in *.
  split; [now rewrite Hcsv|]. split; [reflexivity|]. split; [exact Hreads|].
  split; [intros Hs; cbn in Hs; discriminate | intros _; lia].
Qed.

(** X9.  A dataset without a [diagnosis] column is reported with the key error's
    text, and no random number is drawn. *)
Theorem missing_label_column_reported w dataset :
  csv_file w = Ok dataset ->
  index_of "diagnosis" (columns dataset) = None ->
  fst (provide_example_cases w) = samples_failure (mk_exn KeyError "'diagnosis'") /\
  random_drawn (snd (provide_example_cases w)) = random_drawn w.
Proof.
  intros Hcsv Hi. unfold provide_example_cases. rewrite samples_body_unfold. cbv zeta.
  rewrite Hcsv, (sample_case_no_column _ _ _ Hi). split; reflexivity.
Qed.

(** X10.  Sampling can return any pair of rows: for each benign and each malignant
    row of the dataset there are random numbers with which the call returns
    the cases made from exactly those rows. *)
Theorem any_rows_can_be_sampled dataset benign_row malignant_row reads :
  row_with_label dataset 1 benign_row ->
  row_with_label dataset 0 malignant_row ->
  exists first second,
    fst (provide_example_cases (mk_world (Ok dataset) reads (two_draws first second) 0))
    = samples_success (case_of dataset benign_row) (case_of dataset malignant_row).
Proof.
  intros (Hb & i & Hi & Hlb) (Hm & j & Hj & Hlm).
  rewrite Hi in Hj. injection Hj as <-.
  assert (Hinb : In benign_row (labelled_rows dataset i 1)) by (apply filter_In; auto).
  assert (Hinm : In malignant_row (labelled_rows dataset i 0)) by (apply filter_In; auto).
  destruct (labelled_rows dataset i 1) as [|b bs] eqn:Hbs; [destruct Hinb|].
  destruct (labelled_rows dataset i 0) as [|m ms] eqn:Hms; [destruct Hinm|].
  destruct (In_nth _ _ b Hinb) as (kb & Hkb & Hnb).
  destruct (In_nth _ _ m Hinm) as (km & Hkm & Hnm).
  exists kb, km. unfold provide_example_cases. rewrite samples_body_unfold. cbv zeta.
  cbn [csv_file read_csv snd].
  rewrite (sample_case_unfold _ _ _ _ Hi), Hbs.
  rewrite (sample_case_unfold _ _ _ _ Hi), Hms.
  cbn [random_numbers random_drawn two_draws fst].
  rewrite (Nat.mod_small kb) by exact Hkb.
  rewrite (Nat.mod_small km) by exact Hkm.
  now rewrite Hnb, Hnm.
Qed.






(** The sample dataset has rows of both classes, so the call succeeds. *)
Lemma samples_succeed_iff_witness :
  body_field (fst (provide_example_cases sample_world)) "success" = Some (PBool true).
Proof.
  apply (proj2 (samples_succeed_iff sample_world)).
  exists sample_dataset, 1%nat. repeat split; vm_compute; discriminate.
Defined.

(** A dataset whose columns lack [diagnosis]. *)
Lemma missing_label_column_reported_witness :
  fst (provide_example_cases
         (mk_world (Ok (mk_dataframe ["radius_mean"] [[PInt 12]])) 0 (fun n => n) 0))
  = samples_failure (mk_exn KeyError "'diagnosis'") /\
  random_drawn
    (snd (provide_example_cases
            (mk_world (Ok (mk_dataframe ["radius_mean"] [[PInt 12]])) 0 (fun n => n) 0)))
  = 0%nat.
Proof.
  apply (missing_label_column_reported
           (mk_world (Ok (mk_dataframe ["radius_mean"] [[PInt 12]])) 0 (fun n => n) 0)
           (mk_dataframe ["radius_mean"] [[PInt 12]])); reflexivity.
Defined.

(** In the sample dataset the third row, benign, and the second, malignant,
    can be the pair returned. *)
Lemma any_rows_can_be_sampled_witness :
  exists first second,
    fst (provide_example_cases
           (mk_world (Ok sample_dataset) 0 (two_draws first second) 0))
    = samples_success (case_of sample_dataset [PInt 11; PInt 1; PInt 15])
        (case_of sample_dataset [PInt 21; PInt 0; PInt 25]).
Proof.
  apply (any_rows_can_be_sampled sample_dataset
           [PInt 11; PInt 1; PInt 15] [PInt 21; PInt 0; PInt 25] 0).
  - split; [cbn; auto|]. exists 1%nat. split; reflexivity.
  - split; [cbn; auto|]. exists 1%nat. split; reflexivity.
Defined.

(** The sample world after a call: one read, two draws. *)
Lemma samples_effects_witness :
  csv_reads (snd (provide_example_cases sample_world)) = 1%nat /\
  random_drawn (snd (provide_example_cases sample_world)) = 2%nat.
Proof.
  destruct (samples_effects sample_world) as (_ & _ & Hreads & Hdrawn & _).
  split; [exact Hreads|]. apply Hdrawn. vm_compute. reflexivity.
Defined.
